(** * disco.worker: the Python worker interface

    A shallow embedding of [lib/disco/worker/__init__.py]: the [Worker]
    dictionary with its layered lookup ([getitem]), the job-pack builders
    ([jobdict], [jobenvs]) and the node-side protocol ([start], [run],
    [end], [unpack], [main]).

    Python values are a small inductive type, dictionaries are finite maps
    with string keys, raised exceptions are an explicit result, and the two
    pieces of mutable state the module touches (the job's settings table
    and the channel to the master) are threaded explicitly. *)

From stdpp Require Import gmap strings list fin_maps.
From Stdlib Require Import ZArith Ascii.

Set Warnings "-register-all".
Local Open Scope Z_scope.

(** ** Python values *)

(** The values stored in a worker, a job or the job arguments. Functions
    and every other kind of object are references by name; their
    behaviour, where it matters, is supplied by the node (see [Node]). *)
Inductive pyval : Type :=
  | VNone
  | VBool (b : bool)
  | VInt (n : Z)
  | VStr (s : string)
  | VFun (name : string)
  | VObj (name : string)
  | VSeq (items : list pyval)
  | VDict (items : list (string * pyval)).

(** [bool(v)]: the truth value of [v]. *)
Definition truthy (v : pyval) : bool :=
  match v with
  | VNone => false
  | VBool b => b
  | VInt n => negb (Z.eqb n 0)
  | VStr s => negb (String.eqb s "")
  | VFun _ => true
  | VObj _ => true
  | VSeq l => match l with [] => false | _ => true end
  | VDict l => match l with [] => false | _ => true end
  end.

(** [a or b] *)
Definition py_or (a b : pyval) : pyval := if truthy a then a else b.

(** ** Exceptions *)

(** A raised exception: its class with all its base classes, most derived
    first, and the text [traceback.format_exc()] gives for it. *)
Record exn : Type := Exn { exc_mro : list string; exc_text : string }.

(** [isinstance(e, cls)] *)
Definition isinstance (e : exn) (cls : string) : bool :=
  existsb (String.eqb cls) (exc_mro e).

(** [isinstance(e, (c1, c2, ...))] *)
Definition isinstance_any (e : exn) (classes : list string) : bool :=
  existsb (isinstance e) classes.

Definition StandardError_mro : list string :=
  ["StandardError"; "Exception"; "BaseException"].

Definition KeyError (text : string) : exn :=
  Exn ("KeyError" :: "LookupError" :: StandardError_mro) text.
Definition AttributeError (text : string) : exn :=
  Exn ("AttributeError" :: StandardError_mro) text.
Definition TypeError (text : string) : exn :=
  Exn ("TypeError" :: StandardError_mro) text.
Definition ValueError (text : string) : exn :=
  Exn ("ValueError" :: StandardError_mro) text.
Definition ImportError (text : string) : exn :=
  Exn ("ImportError" :: StandardError_mro) text.
Definition IOError (text : string) : exn :=
  Exn ("IOError" :: "EnvironmentError" :: StandardError_mro) text.
Definition MemoryError (text : string) : exn :=
  Exn ("MemoryError" :: StandardError_mro) text.
(** [disco.error.DataError] derives from [DiscoError], an [Exception]. *)
Definition DataError (text : string) : exn :=
  Exn ["DataError"; "DiscoError"; "Exception"; "BaseException"] text.
(** The classes outside [Exception]. *)
Definition SystemExit (text : string) : exn :=
  Exn ["SystemExit"; "BaseException"] text.
Definition KeyboardInterrupt (text : string) : exn :=
  Exn ["KeyboardInterrupt"; "BaseException"] text.

(** The outcome of evaluating an expression: a value or a raised
    exception. *)
Inductive result (A : Type) : Type :=
  | Ok (a : A)
  | Raise (e : exn).
Arguments Ok {A} a.
Arguments Raise {A} e.

#[global] Instance result_ret : MRet result := fun A a => Ok a.
#[global] Instance result_bind : MBind result := fun A B f r =>
  match r with
  | Ok a => f a
  | Raise e => Raise e
  end.

(** ** Statements over a mutable state *)

(** A statement run in state [St] ends in a value or a raised exception,
    and in either case leaves a state behind: what was written before an
    exception stays written. *)
Definition M (St A : Type) : Type := St → result A * St.

Definition mret_M {St A} (a : A) : M St A := fun s => (Ok a, s).
Definition mbind_M {St A B} (f : A → M St B) (m : M St A) : M St B :=
  fun s => match m s with
           | (Ok a, s') => f a s'
           | (Raise e, s') => (Raise e, s')
           end.
#[global] Instance M_ret St : MRet (M St) := fun A => mret_M.
#[global] Instance M_bind St : MBind (M St) := fun A B => mbind_M.

Definition raise {St A} (e : exn) : M St A := fun s => (Raise e, s).
Definition lift {St A} (r : result A) : M St A := fun s => (r, s).
Definition update {St} (f : St → St) : M St unit := fun s => (Ok tt, f s).
Definition read {St A} (f : St → A) : M St A := fun s => (Ok (f s), s).

(** One [except classes, e: handler] clause. *)
Definition handler (St A : Type) : Type := list string * (exn → M St A).

(** The clauses of a [try] statement are tried in order; the first one
    naming a class of the exception runs, and an exception no clause
    names goes on to the caller. *)
Fixpoint dispatch {St A} (hs : list (handler St A)) (e : exn) : M St A :=
  match hs with
  | [] => raise e
  | (classes, h) :: hs' =>
      if isinstance_any e classes then h e else dispatch hs' e
  end.

Definition try_except {St A} (body : M St A) (hs : list (handler St A))
  : M St A :=
  fun s => match body s with
           | (Ok a, s') => (Ok a, s')
           | (Raise e, s') => dispatch hs e s'
           end.

(** ** Dictionaries *)

Abbreviation Dict := (gmap string pyval).

(** [key in d] *)
Definition contains (d : Dict) (key : string) : bool :=
  bool_decide (is_Some (d !! key)).

(** [d[key]] *)
Definition subscript (d : Dict) (key : string) : result pyval :=
  match d !! key with
  | Some v => Ok v
  | None => Raise (KeyError key)
  end.

(** [d.get(key, dflt)] *)
Definition dict_get (d : Dict) (key : string) (dflt : pyval) : pyval :=
  match d !! key with
  | Some v => v
  | None => dflt
  end.

(** [d.update(other)]: the entries of [other] win. *)
Definition dict_update (d other : Dict) : Dict := other ∪ d.

(** ** Jobs and workers *)

(** Modelled from the spec: the job's settings table ([disco.settings] is
    not part of the module). "Job settings supply the owner identity, a
    memory ceiling, and base environment variables": a table from setting
    names to values, read with [settings[key]] and [settings.get], written
    with [settings[key] = value]. *)
Abbreviation Settings := (gmap string pyval).

(** The job context: the attributes [hasattr] and [getattr] see (among
    them [name]) and the table behind its [settings] attribute. *)
Record Job : Type := { job_attrs : Dict; job_settings : Settings }.

Definition hasattr (job : Job) (key : string) : bool :=
  bool_decide (is_Some (job_attrs job !! key)).

Definition getattr (job : Job) (key : string) : result pyval :=
  match job_attrs job !! key with
  | Some v => Ok v
  | None => Raise (AttributeError key)
  end.

(** A worker is a dictionary; [worker_module] is the [__module__] of its
    class. *)
Record Worker : Type := { worker_module : string; worker_items : Dict }.

(** [Worker.defaults] *)
Definition defaults : Dict :=
  list_to_map
    [("map", VNone);
     ("merge_partitions", VBool false);
     ("reduce", VNone);
     ("required_files", VDict []);
     ("required_modules", VNone);
     ("save", VBool false);
     ("scheduler", VDict []);
     ("partitions", VInt 1);
     ("profile", VBool false)].

(** [Worker.__init__]: the defaults updated by the keyword arguments. *)
Definition Worker_init (module : string) (kwargs : Dict) : Worker :=
  {| worker_module := module; worker_items := dict_update defaults kwargs |}.

(** Each method is modelled by its body, [jobargs] being the dictionary
    its [**jobargs] parameter is bound to. Where a body hands that
    dictionary on with [**jobargs] to a method that has other parameter
    names, the call binds it again: a keyword that names one of the
    callee's parameters is a second value for it, and the call raises
    [TypeError] before the callee's body runs. *)
Definition bind_keywords (params : list string) (keywords : Dict)
  : result unit :=
  if existsb (contains keywords) params
  then Raise (TypeError "got multiple values for keyword argument")
  else Ok tt.

(** The keywords bind: none of them names a parameter. *)
Definition accepts (params : list string) (keywords : Dict) : Prop :=
  Forall (fun name => keywords !! name = None) params.

(** The parameters of [getitem(self, key, job, **jobargs)]. *)
Definition getitem_params : list string := ["self"; "key"; "job"].

(** [Worker.getitem], as the other methods call it:
    [self.getitem(key, job, **jobargs)]. *)
Definition getitem (self : Worker) (key : string) (job : Job)
    (jobargs : Dict) : result pyval :=
  bind_keywords getitem_params jobargs;;
  if contains jobargs key then subscript jobargs key
  else if hasattr job key then getattr job key
  else Ok (dict_get (worker_items self) key VNone).

(** ** Strings *)

(** [s.replace(old, new)] for single characters. *)
Fixpoint replace_char (old new : ascii) (s : string) : string :=
  match s with
  | EmptyString => EmptyString
  | String c s' =>
      String (if Ascii.eqb c old then new else c) (replace_char old new s')
  end.

Fixpoint ends_with_slash (s : string) : bool :=
  match s with
  | EmptyString => false
  | String c EmptyString => Ascii.eqb c "/"
  | String _ s' => ends_with_slash s'
  end.

(** [os.path.join(a, b)] *)
Definition path_join (a b : string) : string :=
  match b with
  | String "/" _ => b
  | _ =>
      match a with
      | EmptyString => b
      | _ => if ends_with_slash a then a +:+ b else a +:+ "/" +:+ b
      end
  end.

Definition is_space (c : ascii) : bool :=
  let n := nat_of_ascii c in
  (Nat.eqb n 32 || (Nat.leb 9 n && Nat.leb n 13))%bool.

Fixpoint lstrip (s : string) : string :=
  match s with
  | EmptyString => EmptyString
  | String c s' => if is_space c then lstrip s' else s
  end.

Fixpoint rstrip (s : string) : string :=
  match s with
  | EmptyString => EmptyString
  | String c s' =>
      match rstrip s' with
      | EmptyString => if is_space c then EmptyString else String c EmptyString
      | t => String c t
      end
  end.

Definition digit_of (c : ascii) : option Z :=
  let n := nat_of_ascii c in
  if (Nat.leb 48 n && Nat.leb n 57)%bool
  then Some (Z.of_nat (n - 48)) else None.

Fixpoint digits (acc : Z) (s : string) : option Z :=
  match s with
  | EmptyString => Some acc
  | String c s' =>
      match digit_of c with
      | Some d => digits (10 * acc + d) s'
      | None => None
      end
  end.

(** [int(s)] for a string: surrounding blanks, an optional sign, and at
    least one decimal digit; [ValueError] for anything else. *)
Definition py_int (s : string) : result Z :=
  let t := rstrip (lstrip s) in
  let '(negative, body) :=
    match t with
    | String "-" r => (true, r)
    | String "+" r => (false, r)
    | _ => (false, t)
    end in
  match body with
  | EmptyString => Raise (ValueError s)
  | _ =>
      match digits 0 body with
      | Some n => Ok (if negative : bool then - n else n)
      | None => Raise (ValueError s)
      end
  end.

(** [max(l)] *)
Definition py_max (l : list Z) : result Z :=
  match l with
  | [] => Raise (ValueError "max() arg is an empty sequence")
  | x :: xs => Ok (foldl Z.max x xs)
  end.

(** [sep.join(parts)]: every part has to be a string. *)
Fixpoint py_join (sep : string) (parts : list pyval) : result string :=
  match parts with
  | [] => Ok ""
  | [VStr s] => Ok s
  | VStr s :: rest =>
      match py_join sep rest with
      | Ok t => Ok (s +:+ sep +:+ t)
      | Raise e => Raise e
      end
  | _ :: _ => Raise (TypeError "sequence item: expected string")
  end.

(** ** Building the job pack *)

(** The functions [jobdict] imports from [disco.util]. An input is
    whatever [inputlist] yields (a url, or a list of replica urls);
    [read_index] yields the [(id, url)] lines of a [dir://] index. *)
Class DiscoUtil : Type := {
  Input : Type;
  inputlist : pyval → option bool → Settings → result (list Input);
  ispartitioned : list Input → bool;
  read_index : Input → result (list (string * string));
}.

(** The dictionary [jobdict] returns, one field per key. *)
Record JobDict `{DiscoUtil} : Type := {
  jd_input : list Input;
  jd_worker : string;
  jd_has_map : bool;
  jd_has_reduce : bool;
  jd_profile : pyval;
  jd_nr_reduces : pyval;
  jd_prefix : pyval;
  jd_scheduler : pyval;
  jd_owner : pyval;
}.

(** [Worker.bin] *)
Definition bin (self : Worker) : string :=
  path_join "lib" (replace_char "." "/" (worker_module self) +:+ ".py").

(** [int(id) for id, url in read_index(dir)] *)
Fixpoint index_ids (entries : list (string * string)) : result (list Z) :=
  match entries with
  | [] => Ok []
  | (id, url) :: rest =>
      n ← py_int id;
      ns ← index_ids rest;
      mret (n :: ns)
  end.

(** [int(id) for dir in input for id, url in read_index(dir)] *)
Fixpoint partition_ids `{DiscoUtil} (input : list Input) : result (list Z) :=
  match input with
  | [] => Ok []
  | dir :: rest =>
      entries ← read_index dir;
      ns ← index_ids entries;
      more ← partition_ids rest;
      mret (ns ++ more)
  end.

(** [partition=None if has_map else False] *)
Definition partition_arg (has_map : bool) : option bool :=
  if has_map then None else Some false.

(** [Worker.jobdict] *)
Definition jobdict `{DiscoUtil} (self : Worker) (job : Job) (jobargs : Dict)
  : result JobDict :=
  let get key := getitem self key job jobargs in
  map_ ← get "map";
  let has_map := truthy map_ in
  reduce_ ← get "reduce";
  let has_reduce := truthy reduce_ in
  input_ ← get "input";
  input ← inputlist (py_or input_ (VSeq []))
                    (partition_arg has_map)
                    (job_settings job);
  nr_reduces ←
    (if has_map then
       partitions ← get "partitions";
       mret (py_or partitions (VInt 1))
     else if ispartitioned input then
       ids ← partition_ids input;
       largest ← py_max ids;
       mret (VInt (1 + largest))
     else
       mret (VInt 1));
  merge_partitions ← get "merge_partitions";
  let nr_reduces := if truthy merge_partitions then VInt 1 else nr_reduces in
  profile ← get "profile";
  prefix ← getattr job "name";
  scheduler ← get "scheduler";
  owner ← subscript (job_settings job) "DISCO_JOB_OWNER";
  mret {| jd_input := input;
          jd_worker := bin self;
          jd_has_map := has_map;
          jd_has_reduce := has_reduce;
          jd_profile := profile;
          jd_nr_reduces := nr_reduces;
          jd_prefix := prefix;
          jd_scheduler := scheduler;
          jd_owner := owner |}.

(** Modelled from the spec: the [env] property of the settings table
    ([disco.settings] is not part of the module), "job settings'
    environment view": some mapping of environment variables computed
    from the table. *)
Class SettingsEnv : Type := {
  settings_env : Settings → gmap string string;
}.

(** [settings[key] = value], on the table the job holds: the local name
    [settings] in [jobenvs] is the job's own table, not a copy. *)
Definition settings_setitem (key : string) (value : pyval) : M Job unit :=
  update (fun job =>
    {| job_attrs := job_attrs job;
       job_settings := <[key := value]> (job_settings job) |}).

(** [Worker.jobenvs]; the state is the job it is given. *)
Definition jobenvs `{SettingsEnv} (self : Worker) (jobargs : Dict)
  : M Job (gmap string string) :=
  settings_setitem "LC_ALL" (VStr "C");;
  settings_setitem "LD_LIBRARY_PATH" (VStr "lib");;
  old ← read (fun job => dict_get (job_settings job) "PYTHONPATH" (VStr ""));
  joined ← lift (py_join ":" [old; VStr "lib"]);
  settings_setitem "PYTHONPATH" (VStr joined);;
  read (fun job => settings_env (job_settings job)).

(** ** Running a task on a node *)

(** The events a worker sends to the master ([disco.events]). *)
Inductive message : Type :=
  | AnnouncePID (pid : string)
  | Status (text : string)
  | WorkerDone
  | DataUnavailable (text : string)
  | TaskFailed (text : string).

(** The three events that end a worker's conversation with the master. *)
Definition is_terminal (m : message) : bool :=
  match m with
  | WorkerDone | DataUnavailable _ | TaskFailed _ => true
  | AnnouncePID _ | Status _ => false
  end.

(** The calls made on the task's output. *)
Inductive task_call : Type :=
  | TaskSend
  | TaskSave
  | TaskPut (name contents : string).

Record Task : Type := { task_mode : string; task_uid : string }.

Record JobPack : Type := { jobpack_jobdata : string }.

(** What a worker process leaves behind: the events sent, oldest first,
    and the calls made on the task. *)
Record Channel : Type := { sent : list message; task_calls : list task_call }.

Definition fresh : Channel := {| sent := []; task_calls := [] |}.

(** The serializer: [cPickle.dumps(x, -1)] and [cPickle.loads]. *)
Class CPickle : Type := {
  dumps : Worker * Job * Dict → result string;
  loads : string → result (Worker * Job * Dict);
}.

(** Everything else the node-side code calls outside this module, as
    the outcome each call has on this node: [None] is a normal return. *)
Class Node : Type := {
  getpid : string;
  NonBlockingInput_outcome : option exn;
  MessageWriter_outcome : option exn;
  JobPack_request : result JobPack;
  load_main_module : option exn;
  Task_request : result Task;
  set_mem_limit : pyval → option exn;
  (** calling the function or object [name]: the lines it prints, which
      the message writer frames as status events, and how it ends *)
  call_function : string → Task → Job → Dict → list string * option exn;
  task_path : Task → string → string;
  (** [cProfile.runctx]: its result, given how the profiled statement
      ended *)
  runctx_result : result unit → string → result unit;
  read_file : string → result string;
  task_outcome : Task → task_call → option exn;
  force_utf8 : string → string;
}.

Definition outcome {St} (o : option exn) : M St unit :=
  match o with
  | None => mret tt
  | Some e => raise e
  end.

(** The channel with one more event sent. *)
Definition push (m : message) (ch : Channel) : Channel :=
  {| sent := sent ch ++ [m]; task_calls := task_calls ch |}.

(** [event.send()] *)
Definition send (m : message) : M Channel unit := update (push m).

(** A call on the task: it is made, and then returns or raises. *)
Definition task_do `{Node} (task : Task) (c : task_call) : M Channel unit :=
  update (fun ch => {| sent := sent ch; task_calls := task_calls ch ++ [c] |});;
  outcome (task_outcome task c).

(** [f(task, job, **jobargs)]: a function, or any other object, is
    called, and how the call goes is the node's to say (an object that
    cannot be called ends in [TypeError] there); [None], numbers,
    strings, sequences and dictionaries are never callable. *)
Definition call `{Node} (f : pyval) (task : Task) (job : Job) (jobargs : Dict)
  : M Channel unit :=
  match f with
  | VFun name | VObj name =>
      let '(printed, ending) := call_function name task job jobargs in
      update (fun ch => {| sent := sent ch ++ (Status <$> printed);
                           task_calls := task_calls ch |});;
      outcome ending
  | VNone | VBool _ | VInt _ | VStr _ | VSeq _ | VDict _ =>
      raise (TypeError "object is not callable")
  end.

(** [Worker.jobdata] *)
Definition jobdata `{CPickle} (self : Worker) (job : Job) (jobargs : Dict)
  : result string :=
  dumps (self, job, jobargs).

(** [Worker.run] *)
Definition run `{Node} (self : Worker) (task : Task) (job : Job)
    (jobargs : Dict) : M Channel unit :=
  f ← lift (subscript (worker_items self) (task_mode task));
  call f task job jobargs.

(** [Worker.end] *)
Definition end_ `{Node} (self : Worker) (task : Task) (job : Job)
    (jobargs : Dict) : M Channel unit :=
  save ← lift (subscript (worker_items self) "save");
  to_master ←
    (if negb (truthy save) then mret true
     else if String.eqb (task_mode task) "map" then
       reduce_ ← lift (subscript (worker_items self) "reduce");
       mret (truthy reduce_)
     else mret false);
  if to_master : bool then
    task_do task TaskSend;;
    send (Status "Results sent to master")
  else
    task_do task TaskSave;;
    send (Status "Results saved to DDFS").

(** [runctx('self.run(task, job, **jobargs)', globals(), locals(), path)] *)
Definition runctx `{Node} (statement : M Channel unit) (path : string)
  : M Channel unit :=
  fun ch => let '(r, ch') := statement ch in (runctx_result r path, ch').

(** [Worker.start] *)
Definition start `{Node} (self : Worker) (task : Task) (job : Job)
    (jobargs : Dict) : M Channel unit :=
  max_mem ← lift (subscript (job_settings job) "DISCO_WORKER_MAX_MEM");
  outcome (set_mem_limit max_mem);;
  profile ← lift (getitem self "profile" job jobargs);
  (if truthy profile then
     let name := "profile-" +:+ task_uid task in
     let path := task_path task name in
     runctx (run self task job jobargs) path;;
     contents ← lift (read_file path);
     task_do task (TaskPut name contents)
   else
     run self task job jobargs);;
  end_ self task job jobargs.

(** [Worker.unpack] *)
Definition unpack `{Node} `{CPickle} (jobpack : JobPack)
  : M Channel (Worker * Job * Dict) :=
  try_except (outcome load_main_module)
             [(["ImportError"], fun _ => mret tt)];;
  lift (loads (jobpack_jobdata jobpack)).

(** The parameters of [start(self, task, job, **jobargs)]. *)
Definition start_params : list string := ["self"; "task"; "job"].

(** The [try] block of [Worker.main] up to and including the call of
    [start]: everything but the final [WorkerDone]. The call
    [worker.start(Task.request(), job, **jobargs)] binds the unpacked
    arguments once the task has been requested. *)
Definition main_task `{Node} `{CPickle} : M Channel unit :=
  outcome NonBlockingInput_outcome;;
  outcome MessageWriter_outcome;;
  send (AnnouncePID getpid);;
  jobpack ← lift JobPack_request;
  '(worker, job, jobargs) ← unpack jobpack;
  task ← lift Task_request;
  lift (bind_keywords start_params jobargs);;
  start worker task job jobargs.

(** [Worker.main] *)
Definition main `{Node} `{CPickle} : M Channel unit :=
  try_except
    (main_task;;
     send WorkerDone)
    [(["DataError"; "EnvironmentError"; "MemoryError"],
      fun e => send (DataUnavailable (exc_text e));; raise e);
     (["Exception"],
      fun e => send (TaskFailed (force_utf8 (exc_text e)));; raise e)].

(** ** The job home *)

Definition IndexError (text : string) : exn :=
  Exn ("IndexError" :: "LookupError" :: StandardError_mro) text.

(** The calls made on the [DiscoZipFile] the job home is built in. *)
Inductive zip_call : Type :=
  | WritePy (dir arcdir : string)
  | WriteModule (module : pyval) (arcdir : option string)
  | WriteBytes (path : string) (contents : pyval)
  | WritePath (path : pyval)
  | ZipClose.

(** What [jobzip] and [jobhome] use from outside the module: where the
    [clx] and [disco] packages are ([os.path.dirname] of their files),
    [disco.util.iskv], how the zip file's methods end and what it dumps,
    and iteration and [obj[0]] for objects that are none of the built-in
    values. *)
Class Bundler : Type := {
  clx_dir : string;
  disco_dir : string;
  iskv : pyval → bool;
  iter_object : string → result (list pyval);
  first_of_object : string → result pyval;
  zip_outcome : zip_call → option exn;
  zip_dumps : list zip_call → result string;
}.

(** The one-character strings a string iterates over. *)
Fixpoint chars (s : string) : list pyval :=
  match s with
  | EmptyString => []
  | String c s' => VStr (String c EmptyString) :: chars s'
  end.

(** [for x in v]: the values [v] yields. *)
Definition py_iter `{Bundler} (v : pyval) : result (list pyval) :=
  match v with
  | VSeq items => Ok items
  | VStr s => Ok (chars s)
  | VDict items => Ok ((fun item => VStr (fst item)) <$> items)
  | VObj name => iter_object name
  | VNone | VBool _ | VInt _ | VFun _ =>
      Raise (TypeError "object is not iterable")
  end.

(** [v[0]] *)
Definition py_first `{Bundler} (v : pyval) : result pyval :=
  match v with
  | VSeq (x :: _) => Ok x
  | VSeq [] => Raise (IndexError "index out of range")
  | VStr (String c _) => Ok (VStr (String c EmptyString))
  | VStr EmptyString => Raise (IndexError "index out of range")
  | VDict _ => Raise (KeyError "0")
  | VObj name => first_of_object name
  | VNone | VBool _ | VInt _ | VFun _ =>
      Raise (TypeError "object is not subscriptable")
  end.

(** A call on the zip file: it is made, and then returns or raises. *)
Definition zip_do `{Bundler} (c : zip_call) : M (list zip_call) unit :=
  update (fun calls => calls ++ [c]);;
  outcome (zip_outcome c).

(** [for x in items: body(x)] *)
Fixpoint for_each {St A} (items : list A) (body : A → M St unit)
  : M St unit :=
  match items with
  | [] => mret tt
  | x :: rest => body x;; for_each rest body
  end.

(** The statements of [Worker.jobzip] after the zip file is created; the
    state is the calls made on it. *)
Definition jobzip_writes `{Bundler} (self : Worker) (job : Job)
    (jobargs : Dict) : M (list zip_call) unit :=
  let get key := getitem self key job jobargs in
  zip_do (WritePy clx_dir "lib");;
  zip_do (WritePy disco_dir "lib");;
  job_module ← lift (getattr job "__module__");
  zip_do (WriteModule job_module None);;
  zip_do (WriteModule (VStr (worker_module self)) None);;
  required_files ← lift (get "required_files");
  match required_files with
  | VDict items =>
      for_each items (fun item => zip_do (WriteBytes (fst item) (snd item)))
  | _ =>
      paths ← lift (py_iter required_files);
      for_each paths (fun path => zip_do (WritePath path))
  end;;
  required_modules ← lift (get "required_modules");
  mods ← lift (py_iter (py_or required_modules (VSeq [])));
  for_each mods (fun entry =>
    target ← (if iskv entry then lift (py_first entry) else mret entry);
    zip_do (WriteModule target (Some "lib"))).

(** [Worker.jobzip]: the zip file it returns, as the calls made on it. *)
Definition jobzip `{Bundler} (self : Worker) (job : Job) (jobargs : Dict)
  : result (list zip_call) :=
  match jobzip_writes self job jobargs [] with
  | (Ok _, calls) => Ok calls
  | (Raise e, _) => Raise e
  end.

(** [Worker.jobhome] *)
Definition jobhome `{Bundler} (self : Worker) (job : Job) (jobargs : Dict)
  : result string :=
  calls ← jobzip self job jobargs;
  match zip_do ZipClose calls with
  | (Ok _, closed) => zip_dumps closed
  | (Raise e, _) => Raise e
  end.

(** The four calls every job zip starts with: the two packages the
    worker runs on, then the job's module and the worker's. *)
Definition base_calls `{Bundler} (self : Worker) (job_module : pyval)
  : list zip_call :=
  [WritePy clx_dir "lib";
   WritePy disco_dir "lib";
   WriteModule job_module None;
   WriteModule (VStr (worker_module self)) None].

(** The module a [required_modules] entry stands for: the first
    component of a key-value pair, the entry itself otherwise. *)
Definition names_module `{Bundler} (entry target : pyval) : Prop :=
  if iskv entry then py_first entry = Ok target else target = entry.

(** A statement on the zip file that, when it returns, has only added
    calls, all of which the zip file accepted. *)
Definition accepted_only `{Bundler} {A} (m : M (list zip_call) A) : Prop :=
  ∀ calls a calls', m calls = (Ok a, calls') →
    ∃ extra, calls' = calls ++ extra ∧
             Forall (fun c => zip_outcome c = None) extra.

(** The integer a value is, if it is one: [bool] is a kind of [int]. *)
Definition py_number (v : pyval) : option Z :=
  match v with
  | VInt n => Some n
  | VBool b => Some (if b then 1 else 0)
  | _ => None
  end.

(** The value is an integer (or a boolean), and at least 1. *)
Definition at_least_one (v : pyval) : Prop :=
  ∃ n, py_number v = Some n ∧ 1 ≤ n.

(** ** The specification's words *)

(** SpecOverride, in the specification's words: "(1) [callArgs[key]] if
    present, (2) [job.<key>] if the job context exposes that attribute,
    (3) the specification's own stored value"; the first layer that has
    the key gives the value, and no layer may have it. *)
Definition SpecOverride (self : Worker) (key : string) (job : Job)
    (callArgs : Dict) : option pyval :=
  match callArgs !! key with
  | Some v => Some v
  | None =>
      match job_attrs job !! key with
      | Some v => Some v
      | None => worker_items self !! key
      end
  end.

(** The resolved value of a key: what SpecOverride gives, [None] when no
    layer has the key. *)
Definition resolved (self : Worker) (key : string) (job : Job)
    (callArgs : Dict) : pyval :=
  default VNone (SpecOverride self key job callArgs).

(** Partition id [n] is enumerated by the index of one of the inputs. *)
Definition enumerates `{DiscoUtil} (input : list Input) (n : Z) : Prop :=
  ∃ dir entries id url,
    dir ∈ input ∧ read_index dir = Ok entries ∧
    (id, url) ∈ entries ∧ py_int id = Ok n.

(** PartitionResolver, in the specification's words: with a map,
    [partitions] or 1 if that is falsy; without a map and with
    partitioned input, one more than the largest partition id over all
    inputs; otherwise 1; and 1 whenever [merge_partitions] holds. *)
Inductive PartitionResolver `{DiscoUtil} (hasMap : bool) (partitions : pyval)
    (input : list Input) (merge_partitions : bool) : pyval → Prop :=
  | resolve_map :
      merge_partitions = false → hasMap = true →
      truthy partitions = true →
      PartitionResolver hasMap partitions input merge_partitions partitions
  | resolve_map_fallback :
      merge_partitions = false → hasMap = true →
      truthy partitions = false →
      PartitionResolver hasMap partitions input merge_partitions (VInt 1)
  | resolve_partitioned (largest : Z) :
      merge_partitions = false → hasMap = false →
      ispartitioned input = true →
      enumerates input largest →
      (∀ n, enumerates input n → n ≤ largest) →
      PartitionResolver hasMap partitions input merge_partitions
                        (VInt (1 + largest))
  | resolve_single :
      merge_partitions = false → hasMap = false →
      ispartitioned input = false →
      PartitionResolver hasMap partitions input merge_partitions (VInt 1)
  | resolve_merge :
      merge_partitions = true →
      PartitionResolver hasMap partitions input merge_partitions (VInt 1).

(** Every input has an index that can be read, and every id in it is an
    integer literal. *)
Definition index_readable `{DiscoUtil} (input : list Input) : Prop :=
  ∀ dir, dir ∈ input →
    ∃ entries, read_index dir = Ok entries ∧
      ∀ id url, (id, url) ∈ entries → ∃ n, py_int id = Ok n.

(** The job's settings after the three writes of [jobenvs], [path] being
    the module search path found in them. *)
Definition overridden (settings : Settings) (path : string) : Settings :=
  <[ "PYTHONPATH" := VStr (path +:+ ":" +:+ "lib") ]>
    (<[ "LD_LIBRARY_PATH" := VStr "lib" ]>
       (<[ "LC_ALL" := VStr "C" ]> settings)).

Definition with_settings (job : Job) (settings : Settings) : Job :=
  {| job_attrs := job_attrs job; job_settings := settings |}.

(** A statement is quiet when all it does to the events sent is add
    events that are not terminal. *)
Definition quiet {A} (c : M Channel A) : Prop :=
  ∀ ch, ∃ extra,
    sent (snd (c ch)) = sent ch ++ extra ∧
    Forall (fun m => is_terminal m = false) extra.

(** Modelled from the library's documentation of [cPickle]: [loads]
    reconstitutes the object that [dumps] was given. The documentation
    promises it for objects that can be pickled, classes and functions
    being pickled by reference to their module, which must be importable
    where the data is loaded; [dumps] raises for the others. *)
Definition round_trips `{CPickle} : Prop :=
  ∀ (triple : Worker * Job * Dict) (data : string),
    dumps triple = Ok data → loads data = Ok triple.

(** The exception classes [main] reports as [DataUnavailable]. *)
Definition unavailable : list string :=
  ["DataError"; "EnvironmentError"; "MemoryError"].

(** The number of terminal events among the events sent. *)
Definition terminal_count (log : list message) : nat :=
  length (filter (fun m => is_terminal m = true) log).

(** ** Examples *)

(** Concrete workers, jobs and collaborators on which the statements
    below are evaluated. *)
Module Examples.

Definition classic : Worker := Worker_init "disco.worker" ∅.

Definition job : Job :=
  {| job_attrs := {[ "name" := VStr "wordcount" ]};
     job_settings :=
       list_to_map [("DISCO_JOB_OWNER", VStr "alice@cnode01");
                    ("DISCO_WORKER_MAX_MEM", VInt 1024)] |}.

(** A job whose class also carries a [partitions] attribute. *)
Definition wide_job : Job :=
  {| job_attrs := <[ "partitions" := VInt 8 ]> (job_attrs job);
     job_settings := job_settings job |}.

(** A reading of [disco.util] over plain urls, for the examples: the
    input list is taken as given, it is partitioned when it is not empty
    and every input is a [dir://] url, and one index is known. *)
Fixpoint urls (l : list pyval) : result (list string) :=
  match l with
  | [] => Ok []
  | VStr url :: rest =>
      match urls rest with
      | Ok more => Ok (url :: more)
      | Raise e => Raise e
      end
  | _ :: _ => Raise (TypeError "input is not a url")
  end.

Definition util : DiscoUtil :=
  {| Input := string;
     inputlist := fun v _ _ =>
       match v with
       | VSeq l => urls l
       | _ => Raise (TypeError "input is not a list")
       end;
     ispartitioned := fun input =>
       match input with
       | [] => false
       | _ => forallb (String.prefix "dir://") input
       end;
     read_index := fun dir =>
       if String.eqb dir "dir://cnode03/wordcount/"
       then Ok [("0", "disco://cnode03/wordcount/reduce-0");
                ("1", "disco://cnode03/wordcount/reduce-1");
                ("2", "disco://cnode04/wordcount/reduce-2")]
       else Raise (IOError dir) |}.

(** A job with a map, asked for four partitions. *)
Definition mapper : Worker :=
  Worker_init "disco.worker"
    (list_to_map [("map", VFun "fun_map");
                  ("partitions", VInt 4);
                  ("input", VSeq [VStr "http://www.example.com/data"])]).

Definition mapper_dict : @JobDict util :=
  {| jd_input := ["http://www.example.com/data" : @Input util];
     jd_worker := "lib/disco/worker.py";
     jd_has_map := true;
     jd_has_reduce := false;
     jd_profile := VBool false;
     jd_nr_reduces := VInt 4;
     jd_prefix := VStr "wordcount";
     jd_scheduler := VDict [];
     jd_owner := VStr "alice@cnode01" |}.

(** A reduce-only job over the results of an earlier job. *)
Definition reducer : Worker :=
  Worker_init "disco.worker"
    (list_to_map [("reduce", VFun "fun_reduce");
                  ("input", VSeq [VStr "dir://cnode03/wordcount/"])]).

(** An environment view for the examples: the settings that are strings,
    as they are. *)
Definition view : SettingsEnv :=
  {| settings_env := omap (fun v => match v with
                                    | VStr s => Some s
                                    | _ => None
                                    end) |}.

(** A job submitted from a site with search paths of its own. *)
Definition site_job : Job :=
  {| job_attrs := job_attrs job;
     job_settings :=
       list_to_map [("DISCO_JOB_OWNER", VStr "alice@cnode01");
                    ("LD_LIBRARY_PATH", VStr "/usr/local/lib");
                    ("PYTHONPATH", VStr "/srv/site")] |}.

(** A node on which every collaborator returns normally, except that the
    entry module is not there to load; the job's functions print one line
    and end as [ending] says. *)
Definition node (ending : option exn) : Node :=
  {| getpid := "4242";
     NonBlockingInput_outcome := None;
     MessageWriter_outcome := None;
     JobPack_request := Ok {| jobpack_jobdata := "jobdata" |};
     load_main_module := Some (ImportError "No module named __main__");
     Task_request := Ok {| task_mode := "map"; task_uid := "7" |};
     set_mem_limit := fun _ => None;
     call_function := fun _ _ _ _ => (["3 entries mapped"], ending);
     task_path := fun _ name => "./" +:+ name;
     runctx_result := fun r _ => r;
     read_file := fun _ => Ok "";
     task_outcome := fun _ _ => None;
     force_utf8 := fun text => text |}.

(** A serializer whose every job pack holds the [mapper] job. *)
Definition pickle : CPickle :=
  {| dumps := fun _ => Ok "jobdata";
     loads := fun _ => Ok (mapper, job, ∅) |}.

(** Equality of values, of dictionaries and of job packs' contents, to
    tell one job from another. *)
Fixpoint pyval_eqb (a b : pyval) {struct a} : bool :=
  match a, b with
  | VNone, VNone => true
  | VBool x, VBool y => bool_decide (x = y)
  | VInt x, VInt y => Z.eqb x y
  | VStr x, VStr y | VFun x, VFun y | VObj x, VObj y => bool_decide (x = y)
  | VSeq xs, VSeq ys =>
      (fix all2 (xs ys : list pyval) {struct xs} : bool :=
         match xs, ys with
         | [], [] => true
         | x :: xs', y :: ys' => pyval_eqb x y && all2 xs' ys'
         | _, _ => false
         end) xs ys
  | VDict xs, VDict ys =>
      (fix all2 (xs ys : list (string * pyval)) {struct xs} : bool :=
         match xs, ys with
         | [], [] => true
         | (k, x) :: xs', (l, y) :: ys' =>
             bool_decide (k = l) && pyval_eqb x y && all2 xs' ys'
         | _, _ => false
         end) xs ys
  | _, _ => false
  end.

Definition dict_eqb (a b : Dict) : bool :=
  pyval_eqb (VDict (map_to_list a)) (VDict (map_to_list b)).

Definition triple_eqb (a b : Worker * Job * Dict) : bool :=
  let '(w1, j1, a1) := a in
  let '(w2, j2, a2) := b in
  bool_decide (worker_module w1 = worker_module w2) &&
  dict_eqb (worker_items w1) (worker_items w2) &&
  dict_eqb (job_attrs j1) (job_attrs j2) &&
  dict_eqb (job_settings j1) (job_settings j2) &&
  dict_eqb a1 a2.

(** A serializer that knows the [mapper] job, and no other: it pickles
    that job with no call-time arguments, and reads it back. *)
Definition archive : CPickle :=
  {| dumps := fun triple =>
       if triple_eqb triple (mapper, job, ∅) then Ok "jobdata"
       else Raise (Exn ["PicklingError"; "PickleError"; "Exception";
                        "BaseException"; "object"]
                       "Can't pickle: not the mapper job");
     loads := fun data =>
       if bool_decide (data = "jobdata") then Ok (mapper, job, ∅)
       else Raise (Exn ["UnpicklingError"; "PickleError"; "Exception";
                        "BaseException"; "object"]
                       "invalid load key") |}.

Definition reduce_task : Task := {| task_mode := "reduce"; task_uid := "9" |}.

(** The same reading of [disco.util], with indices that list nothing. *)
Definition bare_util : DiscoUtil :=
  {| Input := string;
     inputlist := @inputlist util;
     ispartitioned := @ispartitioned util;
     read_index := fun _ => Ok [] |}.

(** A worker of a class defined in a module of the user's. *)
Definition custom : Worker :=
  Worker_init "analytics.jobs.wordcount"
    (list_to_map [("save", VBool true); ("combiner", VFun "fun_combine")]).

(** A job whose settings came with a module search path that is not a
    string. *)
Definition odd_job : Job :=
  {| job_attrs := job_attrs job;
     job_settings := <[ "PYTHONPATH" := VSeq [VStr "/srv/site"] ]>
                       (job_settings job) |}.

(** A node on which reading the entry module fails for another reason
    than its absence, and the task's [send] fails. *)
Definition broken_node : Node :=
  {| getpid := "4243";
     NonBlockingInput_outcome := None;
     MessageWriter_outcome := None;
     JobPack_request := Ok {| jobpack_jobdata := "jobdata" |};
     load_main_module :=
       Some (Exn ("SyntaxError" :: StandardError_mro) "SyntaxError: invalid syntax");
     Task_request := Ok {| task_mode := "map"; task_uid := "7" |};
     set_mem_limit := fun _ => None;
     call_function := fun _ _ _ _ => ([], None);
     task_path := fun _ name => "./" +:+ name;
     runctx_result := fun r _ => r;
     read_file := fun path => Raise (IOError path);
     task_outcome := fun _ c =>
       match c with
       | TaskSend => Some (IOError "IOError: connection reset")
       | _ => None
       end;
     force_utf8 := fun text => text |}.

Definition map_task : Task := {| task_mode := "map"; task_uid := "7" |}.

Definition shuffle_task : Task := {| task_mode := "shuffle"; task_uid := "8" |}.

(** Nodes that fail early: the input cannot be wrapped, the job pack
    cannot be requested, or the memory limit cannot be set. *)
Definition node_with (wrapping : option exn) (request : result JobPack)
    (limit : option exn) : Node :=
  {| getpid := "4244";
     NonBlockingInput_outcome := wrapping;
     MessageWriter_outcome := None;
     JobPack_request := request;
     load_main_module := None;
     Task_request := Ok map_task;
     set_mem_limit := fun _ => limit;
     call_function := fun _ _ _ _ => ([], None);
     task_path := fun _ name => "./" +:+ name;
     runctx_result := fun r _ => r;
     read_file := fun _ => Ok "ncalls tottime";
     task_outcome := fun _ _ => None;
     force_utf8 := fun text => text |}.

(** The [mapper] job, profiled. *)
Definition profiled : Worker :=
  Worker_init "disco.worker"
    (list_to_map [("map", VFun "fun_map"); ("profile", VBool true)]).

(** A bundler whose zip file takes everything, with [iskv] as
    [disco.util] has it: a sequence of two. *)
Definition bundler : Bundler :=
  {| clx_dir := "/usr/lib/python2.6/site-packages/clx";
     disco_dir := "/usr/lib/python2.6/site-packages/disco";
     iskv := fun v => match v with VSeq [_; _] => true | _ => false end;
     iter_object := fun name => Raise (TypeError name);
     first_of_object := fun name => Raise (TypeError name);
     zip_outcome := fun _ => None;
     zip_dumps := fun calls => Ok "PK" |}.

Definition packaged_job : Job :=
  {| job_attrs := <[ "__module__" := VStr "wordcount" ]> (job_attrs job);
     job_settings := job_settings job |}.

(** A worker that ships a data file and two modules. *)
Definition shipping : Worker :=
  Worker_init "disco.worker"
    (list_to_map
       [("required_files", VDict [("stopwords.txt", VStr "a an the")]);
        ("required_modules",
         VSeq [VStr "simplejson";
               VSeq [VStr "tokenize"; VStr "/home/alice/tokenize.py"]])]).

(** A job with a map, asked for a number of partitions that is no
    number of partitions. *)
Definition negative : Worker :=
  Worker_init "disco.worker"
    (list_to_map [("map", VFun "fun_map");
                  ("partitions", VInt (-2));
                  ("input", VSeq [VStr "http://www.example.com/data"])]).

Definition reducer_dict : @JobDict util :=
  {| jd_input := ["dir://cnode03/wordcount/" : @Input util];
     jd_worker := "lib/disco/worker.py";
     jd_has_map := false;
     jd_has_reduce := true;
     jd_profile := VBool false;
     jd_nr_reduces := VInt 3;
     jd_prefix := VStr "wordcount";
     jd_scheduler := VDict [];
     jd_owner := VStr "alice@cnode01" |}.

End Examples.

(** * Properties *)

(** ** Layered lookup *)

Lemma contains_lookup (d : Dict) (key : string) :
  contains d key = match d !! key with Some _ => true | None => false end.
Proof.
  unfold contains. destruct (d !! key) as [v|] eqn:E.
  - apply bool_decide_eq_true. eauto.
  - apply bool_decide_eq_false. intros [v Hv]. discriminate.
Qed.

Lemma bind_keywords_accepts (params : list string) (keywords : Dict) :
  accepts params keywords → bind_keywords params keywords = Ok tt.
Proof.
  unfold accepts, bind_keywords. intros Hfree.
  assert (existsb (contains keywords) params = false) as ->; [|reflexivity].
  induction Hfree as [|name params Hname _ IH]; [reflexivity|]. simpl.
  rewrite contains_lookup, Hname. exact IH.
Qed.

Lemma bind_keywords_Ok (params : list string) (keywords : Dict) :
  bind_keywords params keywords = Ok tt → accepts params keywords.
Proof.
  unfold accepts, bind_keywords.
  destruct (existsb (contains keywords) params) eqn:Hany; [discriminate|].
  intros _. induction params as [|name params IH]; [constructor|].
  simpl in Hany. apply orb_false_iff in Hany as [Hname Hrest].
  constructor; [|apply IH; exact Hrest].
  rewrite contains_lookup in Hname.
  destruct (keywords !! name); [discriminate | reflexivity].
Qed.

Lemma bind_keywords_cases (params : list string) (keywords : Dict) :
  bind_keywords params keywords = Ok tt ∨
  bind_keywords params keywords
    = Raise (TypeError "got multiple values for keyword argument").
Proof.
  unfold bind_keywords. destruct (existsb _ _); auto.
Qed.

(** Once the keywords bind, [getitem] does not raise: its guards make
    both [jobargs[key]] and [getattr(job, key)] safe, and its value is
    the resolved one. *)
Lemma getitem_resolved (self : Worker) (key : string) (job : Job)
    (jobargs : Dict) :
  accepts getitem_params jobargs →
  getitem self key job jobargs = Ok (resolved self key job jobargs).
Proof.
  intros Hbind. unfold getitem.
  rewrite (bind_keywords_accepts _ _ Hbind). cbn [mbind result_bind].
  unfold resolved, SpecOverride, hasattr, getattr, subscript, dict_get.
  rewrite contains_lookup.
  destruct (jobargs !! key) as [v|]; [reflexivity|].
  fold (contains (job_attrs job) key). rewrite contains_lookup.
  destruct (job_attrs job !! key) as [v|]; [reflexivity|].
  destruct (worker_items self !! key); reflexivity.
Qed.

(** A value from [getitem] means the keywords bound. *)
Lemma getitem_Ok (self : Worker) (key : string) (job : Job)
    (jobargs : Dict) (v : pyval) :
  getitem self key job jobargs = Ok v →
  accepts getitem_params jobargs ∧ v = resolved self key job jobargs.
Proof.
  intros Hget.
  assert (accepts getitem_params jobargs) as Hbind.
  { apply bind_keywords_Ok. unfold getitem in Hget.
    destruct (bind_keywords getitem_params jobargs) as [[]|e];
      [reflexivity | discriminate]. }
  split; [exact Hbind|].
  rewrite (getitem_resolved _ _ _ _ Hbind) in Hget. congruence.
Qed.

(** C6, as the code has it: for call-time arguments that use none of the
    names [self], [key] and [job], [getitem] returns the call-time
    argument when the key is among the call-time arguments, otherwise the
    job's attribute when the job has one of that name, otherwise the
    worker's own stored value: the value of the first layer that has the
    key, whole. *)
Theorem getitem_precedence (self : Worker) (key : string) (job : Job)
    (jobargs : Dict) :
  accepts getitem_params jobargs →
  (∀ v, jobargs !! key = Some v → getitem self key job jobargs = Ok v) ∧
  (∀ v, jobargs !! key = None → job_attrs job !! key = Some v →
        getitem self key job jobargs = Ok v) ∧
  (∀ v, jobargs !! key = None → job_attrs job !! key = None →
        worker_items self !! key = Some v →
        getitem self key job jobargs = Ok v).
Proof.
  intros Hbind. rewrite (getitem_resolved _ _ _ _ Hbind).
  unfold resolved, SpecOverride.
  repeat split; intros v; intros; repeat match goal with
    | E : _ !! _ = _ |- _ => rewrite E; clear E
    end; reflexivity.
Qed.

(** The three layers each deciding a lookup on their own: [partitions]
    given at call time beats the job's attribute, the job's attribute
    beats the worker's default, and the default is what is left. *)
Lemma getitem_precedence_witness :
  getitem Examples.classic "partitions" Examples.wide_job
          {[ "partitions" := VInt 4 ]} = Ok (VInt 4) ∧
  getitem Examples.classic "partitions" Examples.wide_job ∅ = Ok (VInt 8) ∧
  getitem Examples.classic "partitions" Examples.job ∅ = Ok (VInt 1).
Proof.
  split; [|split].
  - destruct (getitem_precedence Examples.classic "partitions"
                Examples.wide_job {[ "partitions" := VInt 4 ]})
      as (first_layer & _ & _).
    + repeat constructor.
    + apply first_layer. vm_compute. reflexivity.
  - destruct (getitem_precedence Examples.classic "partitions"
                Examples.wide_job ∅) as (_ & second_layer & _).
    + repeat constructor.
    + apply second_layer; vm_compute; reflexivity.
  - destruct (getitem_precedence Examples.classic "partitions"
                Examples.job ∅) as (_ & _ & third_layer).
    + repeat constructor.
    + apply third_layer; vm_compute; reflexivity.
Defined.

(** C6, the claim as written fails: a call-time argument named [key] is
    among the call-time arguments, and looking it up does not return it;
    the call [self.getitem(key, job, **jobargs)] raises [TypeError],
    because the keyword is a second value for the parameter [key]. *)
Lemma getitem_keyword_named_key :
  ({[ "key" := VInt 5 ]} : Dict) !! "key" = Some (VInt 5) ∧
  getitem Examples.classic "key" Examples.job {[ "key" := VInt 5 ]}
    = Raise (TypeError "got multiple values for keyword argument") ∧
  getitem Examples.classic "key" Examples.job {[ "key" := VInt 5 ]}
    ≠ Ok (VInt 5).
Proof.
  split; [vm_compute; reflexivity|].
  split; [vm_compute; reflexivity|].
  vm_compute. discriminate.
Qed.

(** C10, as the code has it: for call-time arguments that use none of
    the names [self], [key] and [job], a key that is in none of the three
    layers resolves to [None]; [getitem] does not raise. *)
Theorem getitem_missing (self : Worker) (key : string) (job : Job)
    (jobargs : Dict) :
  accepts getitem_params jobargs →
  jobargs !! key = None →
  job_attrs job !! key = None →
  worker_items self !! key = None →
  getitem self key job jobargs = Ok VNone.
Proof.
  intros Hbind Hargs Hjob Hself.
  rewrite (getitem_resolved _ _ _ _ Hbind). unfold resolved, SpecOverride.
  rewrite Hargs, Hjob, Hself. reflexivity.
Qed.

Lemma getitem_missing_witness :
  getitem Examples.classic "combiner" Examples.job
          {[ "partitions" := VInt 4 ]} = Ok VNone.
Proof.
  apply getitem_missing; [repeat constructor | vm_compute; reflexivity..].
Defined.

(** C10, the claim as written fails: [combiner] is in none of the three
    layers, yet with a call-time argument named [key] the lookup raises
    [TypeError] instead of returning [None]. *)
Lemma getitem_absent_key_raises :
  ({[ "key" := VStr "nightly" ]} : Dict) !! "combiner" = None ∧
  job_attrs Examples.job !! "combiner" = None ∧
  worker_items Examples.classic !! "combiner" = None ∧
  getitem Examples.classic "combiner" Examples.job
          {[ "key" := VStr "nightly" ]}
    = Raise (TypeError "got multiple values for keyword argument").
Proof. repeat split; vm_compute; reflexivity. Qed.

(** ** The job dictionary *)

Lemma bind_Ok {A B} (r : result A) (f : A → result B) (b : B) :
  r ≫= f = Ok b → ∃ a, r = Ok a ∧ f a = Ok b.
Proof. destruct r as [a|e]; [eauto | discriminate]. Qed.

Lemma bind_M_Ok {St A B} (m : M St A) (f : A → M St B) (s s' : St) (b : B) :
  (m ≫= f) s = (Ok b, s') →
  ∃ a s1, m s = (Ok a, s1) ∧ f a s1 = (Ok b, s').
Proof.
  unfold mbind, M_bind, mbind_M.
  destruct (m s) as [[a|e] s1]; [eauto | discriminate].
Qed.

Lemma bind_M_run {St A B} (m : M St A) (f : A → M St B) (s : St) :
  (m ≫= f) s =
  match m s with
  | (Ok a, s1) => f a s1
  | (Raise e, s1) => (Raise e, s1)
  end.
Proof. reflexivity. Qed.

Lemma foldl_max_spec (xs : list Z) (x : Z) :
  foldl Z.max x xs ∈ x :: xs ∧ ∀ n, n ∈ x :: xs → n ≤ foldl Z.max x xs.
Proof.
  revert x. induction xs as [|y ys IH]; intros x; simpl.
  - split; [left|]. intros n Hn. apply list_elem_of_singleton in Hn. lia.
  - destruct (IH (Z.max x y)) as [Hin Hub]. split.
    + apply elem_of_cons in Hin as [Heq|Hin].
      * rewrite Heq. destruct (Z.max_spec x y) as [[_ ->]|[_ ->]].
        -- right; left.
        -- left.
      * right; right; exact Hin.
    + intros n Hn.
      assert (Z.max x y ≤ foldl Z.max (Z.max x y) ys) by (apply Hub; left).
      apply elem_of_cons in Hn as [->|Hn]; [lia|].
      apply elem_of_cons in Hn as [->|Hn]; [lia|].
      apply Hub. right. exact Hn.
Qed.

(** [max] returns an element that no element exceeds, and fails only on
    the empty sequence. *)
Lemma py_max_spec (ids : list Z) (m : Z) :
  py_max ids = Ok m → m ∈ ids ∧ ∀ n, n ∈ ids → n ≤ m.
Proof.
  destruct ids as [|x xs]; [discriminate|]. simpl.
  intros [= <-]. apply foldl_max_spec.
Qed.

Lemma py_max_nonempty (ids : list Z) :
  ids ≠ [] → ∃ m, py_max ids = Ok m.
Proof. destruct ids; [congruence | simpl; eauto]. Qed.

Lemma index_ids_elem (entries : list (string * string)) (ns : list Z) :
  index_ids entries = Ok ns →
  ∀ n, n ∈ ns ↔ ∃ id url, (id, url) ∈ entries ∧ py_int id = Ok n.
Proof.
  revert ns. induction entries as [|[id url] rest IH]; intros ns; simpl.
  - intros [= <-] n. split.
    + intros Hn. inversion Hn.
    + intros (? & ? & Hin & _). inversion Hin.
  - intros Hb. apply bind_Ok in Hb as (k & Hk & Hb).
    apply bind_Ok in Hb as (ks & Hks & [= <-]).
    intros n. rewrite elem_of_cons, (IH ks Hks n). split.
    + intros [->|(id' & url' & Hin & Hint)].
      * exists id, url. split; [left | exact Hk].
      * exists id', url'. split; [right; exact Hin | exact Hint].
    + intros (id' & url' & Hin & Hint).
      apply elem_of_cons in Hin as [[= -> ->]|Hin].
      * left. congruence.
      * right. eauto.
Qed.

Lemma index_ids_total (entries : list (string * string)) :
  (∀ id url, (id, url) ∈ entries → ∃ n, py_int id = Ok n) →
  ∃ ns, index_ids entries = Ok ns.
Proof.
  induction entries as [|[id url] rest IH]; intros Hall; simpl.
  - eauto.
  - destruct (Hall id url) as [n ->]; [left|].
    destruct IH as [ns ->].
    + intros id' url' Hin. apply (Hall id' url'). right. exact Hin.
    + simpl. eauto.
Qed.

Section JobDict.
Context `{DiscoUtil}.

(** The ids [jobdict] takes the maximum of are the enumerated ones. *)
Lemma partition_ids_enumerates (input : list Input) (ids : list Z) :
  partition_ids input = Ok ids → ∀ n, n ∈ ids ↔ enumerates input n.
Proof.
  revert ids. induction input as [|dir rest IH]; intros ids; simpl.
  - intros [= <-] n. split.
    + intros Hn. inversion Hn.
    + intros (? & ? & ? & ? & Hin & _). inversion Hin.
  - intros Hb. apply bind_Ok in Hb as (entries & Hread & Hb).
    apply bind_Ok in Hb as (ns & Hns & Hb).
    apply bind_Ok in Hb as (more & Hmore & [= <-]).
    intros n. rewrite elem_of_app, (index_ids_elem _ _ Hns n), (IH _ Hmore n).
    unfold enumerates. split.
    + intros [(id & url & Hin & Hint)|(dir' & es & id & url & Hd & Hr & Hin & Hint)].
      * exists dir, entries, id, url. repeat split; [left | | |]; assumption.
      * exists dir', es, id, url. repeat split; [right | | |]; assumption.
    + intros (dir' & es & id & url & Hd & Hr & Hin & Hint).
      apply elem_of_cons in Hd as [->|Hd].
      * left. rewrite Hread in Hr. injection Hr as <-. eauto.
      * right. exists dir', es, id, url. auto.
Qed.

Lemma partition_ids_total (input : list Input) :
  index_readable input → ∃ ids, partition_ids input = Ok ids.
Proof.
  induction input as [|dir rest IH]; intros Hall; simpl.
  - eauto.
  - destruct (Hall dir) as (entries & -> & Hentries); [left|]. cbn.
    destruct (index_ids_total entries Hentries) as [ns ->]. cbn.
    destruct IH as [more ->].
    + intros dir' Hin. apply Hall. right. exact Hin.
    + cbn. eauto.
Qed.

Lemma bind_Ok_l {A B} (a : A) (f : A → result B) : Ok a ≫= f = f a.
Proof. reflexivity. Qed.

(** Pushes the lookups of [jobdict], which do not raise once the
    keywords bind, out of the way. *)
Ltac resolve_lookups :=
  cbv beta zeta; rewrite ?getitem_resolved by assumption;
  repeat (rewrite bind_Ok_l; cbv beta).
Ltac resolve_lookups_in Hyp :=
  cbv beta zeta in Hyp; rewrite ?getitem_resolved in Hyp by assumption;
  repeat (rewrite bind_Ok_l in Hyp; cbv beta in Hyp).

(** A returned job dictionary means the keywords bound in [get]. *)
Lemma jobdict_binds (self : Worker) (job : Job) (jobargs : Dict)
    (d : JobDict) :
  jobdict self job jobargs = Ok d → accepts getitem_params jobargs.
Proof.
  unfold jobdict. intros Hd. cbv beta zeta in Hd.
  apply bind_Ok in Hd as (map_ & Hmap & _).
  apply (getitem_Ok _ _ _ _ _ Hmap).
Qed.

(** What a returned job dictionary says about the steps that led to it. *)
Lemma jobdict_inv (self : Worker) (job : Job) (jobargs : Dict) (d : JobDict) :
  jobdict self job jobargs = Ok d →
  inputlist (py_or (resolved self "input" job jobargs) (VSeq []))
            (partition_arg (truthy (resolved self "map" job jobargs)))
            (job_settings job) = Ok (jd_input d) ∧
  PartitionResolver (truthy (resolved self "map" job jobargs))
                    (resolved self "partitions" job jobargs)
                    (jd_input d)
                    (truthy (resolved self "merge_partitions" job jobargs))
                    (jd_nr_reduces d).
Proof.
  intros Hd. pose proof (jobdict_binds _ _ _ _ Hd) as Hbind.
  unfold jobdict in Hd. resolve_lookups_in Hd.
  apply bind_Ok in Hd as (input & Hinput & Hd).
  apply bind_Ok in Hd as (nr & Hnr & Hd).
  resolve_lookups_in Hd.
  apply bind_Ok in Hd as (prefix & _ & Hd).
  resolve_lookups_in Hd.
  apply bind_Ok in Hd as (owner & _ & [= <-]). simpl.
  split; [exact Hinput|].
  destruct (truthy (resolved self "merge_partitions" job jobargs)) eqn:Hmerge;
    [apply resolve_merge; reflexivity|].
  destruct (truthy (resolved self "map" job jobargs)) eqn:Hmap.
  - resolve_lookups_in Hnr. injection Hnr as <-. unfold py_or.
    destruct (truthy (resolved self "partitions" job jobargs)) eqn:Hparts.
    + apply resolve_map; auto.
    + apply resolve_map_fallback; auto.
  - destruct (ispartitioned input) eqn:Hpart.
    + apply bind_Ok in Hnr as (ids & Hids & Hnr).
      apply bind_Ok in Hnr as (largest & Hmax & [= <-]).
      apply py_max_spec in Hmax as [Hin Hub].
      apply resolve_partitioned; auto.
      * apply (partition_ids_enumerates _ _ Hids). exact Hin.
      * intros n Hn. apply Hub.
        apply (partition_ids_enumerates _ _ Hids). exact Hn.
    + injection Hnr as <-. apply resolve_single; auto.
Qed.

(** [jobdict] returns whenever the keywords bind and its collaborators
    return: the input list
    resolves, the job has a name and an owner, and, where the ids of a
    partitioned input are needed, they can all be read and there is one. *)
Lemma jobdict_returns (self : Worker) (job : Job) (jobargs : Dict)
    (input : list Input) (name owner : pyval) :
  accepts getitem_params jobargs →
  inputlist (py_or (resolved self "input" job jobargs) (VSeq []))
            (partition_arg (truthy (resolved self "map" job jobargs)))
            (job_settings job) = Ok input →
  job_attrs job !! "name" = Some name →
  job_settings job !! "DISCO_JOB_OWNER" = Some owner →
  (truthy (resolved self "map" job jobargs) = false →
   ispartitioned input = true →
   index_readable input ∧ ∃ n, enumerates input n) →
  ∃ d, jobdict self job jobargs = Ok d.
Proof.
  intros Hbind Hinput Hname Howner Hindex.
  unfold jobdict. resolve_lookups.
  rewrite Hinput, bind_Ok_l. cbv beta.
  assert (∀ nr : pyval, ∃ d,
    (prefix ← getattr job "name";
     owner ← subscript (job_settings job) "DISCO_JOB_OWNER";
     mret {| jd_input := input;
             jd_worker := bin self;
             jd_has_map := truthy (resolved self "map" job jobargs);
             jd_has_reduce := truthy (resolved self "reduce" job jobargs);
             jd_profile := resolved self "profile" job jobargs;
             jd_nr_reduces :=
               if truthy (resolved self "merge_partitions" job jobargs)
               then VInt 1 else nr;
             jd_prefix := prefix;
             jd_scheduler := resolved self "scheduler" job jobargs;
             jd_owner := owner |}) = Ok d) as Htail.
  { intros nr. unfold getattr, subscript. rewrite Hname, Howner.
    eexists. reflexivity. }
  destruct (truthy (resolved self "map" job jobargs)) eqn:Hmap.
  - unfold mret, result_ret. rewrite bind_Ok_l. apply Htail.
  - destruct (ispartitioned input) eqn:Hpart.
    + destruct Hindex as [Hread [n Hn]]; [reflexivity..|].
      destruct (partition_ids_total input Hread) as [ids Hids].
      rewrite Hids, bind_Ok_l.
      destruct (py_max_nonempty ids) as [m ->].
      * apply (partition_ids_enumerates _ _ Hids) in Hn.
        intros ->. inversion Hn.
      * unfold mret, result_ret. rewrite !bind_Ok_l. apply Htail.
    + unfold mret, result_ret. rewrite bind_Ok_l. apply Htail.
Qed.


(** C4, as the code has it: [jobdict] passes [partitions] and the
    partition ids on without checking them, so the [nr_reduces] of a job
    dictionary is an integer (or a boolean, which counts as 0 or 1)
    that is at least 1 exactly in these cases: the resolved
    [merge_partitions] holds; or there is a map and the resolved
    [partitions] is falsy or is itself such a value that is at least 1; or there is no map and the input is not partitioned; or
    there is no map, the input is partitioned and some enumerated
    partition id is not negative. *)
Theorem nr_reduces_at_least_one (self : Worker) (job : Job)
    (jobargs : Dict) (d : JobDict) :
  jobdict self job jobargs = Ok d →
  (at_least_one (jd_nr_reduces d) ↔
   truthy (resolved self "merge_partitions" job jobargs) = true ∨
   (truthy (resolved self "map" job jobargs) = true ∧
    (truthy (resolved self "partitions" job jobargs) = false ∨
     at_least_one (resolved self "partitions" job jobargs))) ∨
   (truthy (resolved self "map" job jobargs) = false ∧
    ispartitioned (jd_input d) = false) ∨
   (truthy (resolved self "map" job jobargs) = false ∧
    ispartitioned (jd_input d) = true ∧
    ∃ n, enumerates (jd_input d) n ∧ 0 ≤ n)).
Proof.
  intros Hd.
  destruct (jobdict_inv self job jobargs d Hd) as [_ Hnr].
  assert (at_least_one (VInt 1)) as Hone.
  { exists 1. split; [reflexivity | lia]. }
  inversion Hnr as [Hm Hmap Ht Heq | Hm Hmap Ht Heq
                   | largest Hm Hmap Hp Hin Hub Heq | Hm Hmap Hp Heq | Hm Heq].
  - split.
    + intros Hparts. right; left. auto.
    + intros [Hmerge|[[_ [Hfalsy|Hparts]]|[[Hnomap _]|[Hnomap _]]]];
        congruence.
  - split; [|intros _; exact Hone].
    intros _. right; left. auto.
  - split.
    + intros (n & [= <-] & Hn). right; right; right.
      split; [exact Hmap|]. split; [exact Hp|].
      exists largest. split; [exact Hin | lia].
    + intros [Hmerge|[[Hhasmap _]|[[_ Hnot]|(_ & _ & n & Hn & Hpos)]]];
        try congruence.
      exists (1 + largest). split; [reflexivity|].
      specialize (Hub n Hn). lia.
  - split; [|intros _; exact Hone].
    intros _. right; right; left. auto.
  - split; [|intros _; exact Hone].
    intros _. left. exact Hm.
Qed.

End JobDict.

(** The reduce-only example: the index enumerates ids 0, 1 and 2, and the
    dictionary asks for three reduces. *)
Example reducer_nr_reduces :
  match @jobdict Examples.util Examples.reducer Examples.job ∅ with
  | Ok d => Some (jd_nr_reduces d)
  | Raise _ => None
  end = Some (VInt 3).
Proof. vm_compute. reflexivity. Qed.

(** Merging partitions at call time brings the same job down to one. *)
Example reducer_merged :
  match @jobdict Examples.util Examples.reducer Examples.job
          {[ "merge_partitions" := VBool true ]} with
  | Ok d => Some (jd_nr_reduces d)
  | Raise _ => None
  end = Some (VInt 1).
Proof. vm_compute. reflexivity. Qed.



(** The reduce-only job: the ids 0, 1 and 2 are not negative, and three
    reduces is at least one. *)
Lemma nr_reduces_at_least_one_witness :
  at_least_one (jd_nr_reduces Examples.reducer_dict).
Proof.
  apply (@nr_reduces_at_least_one Examples.util Examples.reducer
           Examples.job ∅ Examples.reducer_dict).
  - vm_compute. reflexivity.
  - right; right; right.
    split; [vm_compute; reflexivity|]. split; [vm_compute; reflexivity|].
    exists 2. split; [|lia].
    exists ("dir://cnode03/wordcount/" : @Input Examples.util).
    eexists. exists "2", "disco://cnode04/wordcount/reduce-2".
    split; [left|].
    split; [vm_compute; reflexivity|].
    split; [right; right; left | vm_compute; reflexivity].
Defined.

(** C4, the claim as written fails: with a map and [partitions=-2],
    [jobdict] returns a dictionary whose [nr_reduces] is -2. *)
Lemma jobdict_negative_partitions :
  match @jobdict Examples.util Examples.negative Examples.job ∅ with
  | Ok d => Some (jd_nr_reduces d)
  | Raise _ => None
  end = Some (VInt (-2)) ∧
  ¬ at_least_one (VInt (-2)).
Proof.
  split; [vm_compute; reflexivity|].
  intros (n & [= <-] & Hn). lia.
Qed.

(** ** The job environment *)

Section JobEnvs.
Context `{SettingsEnv}.

(** [jobenvs] in closed form. With a module search path that is a string
    (or none, which counts as the empty string) it returns the view of the
    settings after its three writes; with any other value the join fails,
    after the first two writes. *)
Lemma jobenvs_run (self : Worker) (jobargs : Dict) (job : Job) :
  jobenvs self jobargs job =
  match dict_get (job_settings job) "PYTHONPATH" (VStr "") with
  | VStr path =>
      (Ok (settings_env (overridden (job_settings job) path)),
       with_settings job (overridden (job_settings job) path))
  | _ =>
      (Raise (TypeError "sequence item: expected string"),
       with_settings job
         (<[ "LD_LIBRARY_PATH" := VStr "lib" ]>
            (<[ "LC_ALL" := VStr "C" ]> (job_settings job))))
  end.
Proof.
  unfold jobenvs, settings_setitem, with_settings, overridden.
  unfold mbind, M_bind, mbind_M, update, read, lift. simpl.
  assert (dict_get (<[ "LD_LIBRARY_PATH" := VStr "lib" ]>
                      (<[ "LC_ALL" := VStr "C" ]> (job_settings job)))
                   "PYTHONPATH" (VStr "")
          = dict_get (job_settings job) "PYTHONPATH" (VStr "")) as ->.
  { unfold dict_get. rewrite !lookup_insert_ne by discriminate. reflexivity. }
  destruct (dict_get (job_settings job) "PYTHONPATH" (VStr ""));
    reflexivity.
Qed.

Lemma overridden_lookup (settings : Settings) (path key : string) :
  overridden settings path !! key =
  if decide (key = "PYTHONPATH") then Some (VStr (path +:+ ":" +:+ "lib"))
  else if decide (key = "LD_LIBRARY_PATH") then Some (VStr "lib")
  else if decide (key = "LC_ALL") then Some (VStr "C")
  else settings !! key.
Proof.
  unfold overridden. rewrite !lookup_insert.
  repeat case_decide; try reflexivity; congruence.
Qed.

Ltac solve_lookup :=
  rewrite ?overridden_lookup, ?lookup_insert;
  repeat case_decide; first [reflexivity | congruence].

(** C7, as the code has it: with a module search path that is a string
    (none counts as the empty string), [jobenvs] returns the settings'
    environment view taken after three writes: the locale becomes [C],
    the library path becomes [lib] whatever it was, and the module search
    path becomes what it was followed by [:lib]; no other setting
    changes. Only the module search path is appended to. *)
Theorem jobenvs_environment (self : Worker) (jobargs : Dict) (job : Job)
    (path : string) :
  dict_get (job_settings job) "PYTHONPATH" (VStr "") = VStr path →
  fst (jobenvs self jobargs job)
    = Ok (settings_env (overridden (job_settings job) path)) ∧
  overridden (job_settings job) path !! "LC_ALL" = Some (VStr "C") ∧
  overridden (job_settings job) path !! "LD_LIBRARY_PATH"
    = Some (VStr "lib") ∧
  overridden (job_settings job) path !! "PYTHONPATH"
    = Some (VStr (path +:+ ":" +:+ "lib")) ∧
  (∀ key, key ≠ "LC_ALL" → key ≠ "LD_LIBRARY_PATH" → key ≠ "PYTHONPATH" →
          overridden (job_settings job) path !! key
            = job_settings job !! key).
Proof.
  intros Hpath. rewrite jobenvs_run, Hpath. simpl.
  split; [reflexivity|].
  rewrite !overridden_lookup. simpl.
  repeat split.
  intros key Hlocale Hlibrary Hmodules. rewrite overridden_lookup.
  repeat case_decide; congruence.
Qed.

(** C8, as the code has it: [jobenvs] writes in the job's own settings
    table. Whether it returns or raises, the table has the locale and the
    library path written afterwards; the keys other than [LC_ALL],
    [LD_LIBRARY_PATH] and [PYTHONPATH] are as they were, and so are the
    job's attributes. When it returns, the module search path the table
    had before (the empty string when it had none) was a string, the
    table now has it followed by [:lib], and the environment returned is
    the view of the written table. When it raises, the module search
    path is as it was. *)
Theorem jobenvs_writes_settings (self : Worker) (jobargs : Dict) (job : Job) :
  let after := snd (jobenvs self jobargs job) in
  job_attrs after = job_attrs job ∧
  job_settings after !! "LC_ALL" = Some (VStr "C") ∧
  job_settings after !! "LD_LIBRARY_PATH" = Some (VStr "lib") ∧
  (∀ key, key ≠ "LC_ALL" → key ≠ "LD_LIBRARY_PATH" → key ≠ "PYTHONPATH" →
          job_settings after !! key = job_settings job !! key) ∧
  (∀ env, fst (jobenvs self jobargs job) = Ok env →
          env = settings_env (job_settings after) ∧
          ∃ path, dict_get (job_settings job) "PYTHONPATH" (VStr "")
                    = VStr path ∧
                  job_settings after !! "PYTHONPATH"
                    = Some (VStr (path +:+ ":" +:+ "lib"))) ∧
  (∀ e, fst (jobenvs self jobargs job) = Raise e →
        job_settings after !! "PYTHONPATH"
          = job_settings job !! "PYTHONPATH").
Proof.
  rewrite jobenvs_run.
  destruct (dict_get (job_settings job) "PYTHONPATH" (VStr "")) eqn:Hpath;
    cbn [fst snd with_settings job_attrs job_settings];
    (split; [reflexivity|]);
    (split; [solve_lookup|]);
    (split; [solve_lookup|]);
    (split; [intros key Hlocale Hlibrary Hmodules; solve_lookup|]);
    (split; [intros env Henv; try discriminate
            |intros e He; try discriminate; solve_lookup]).
  split; [congruence|].
  eexists. split; [reflexivity|]. rewrite overridden_lookup. reflexivity.
Qed.

End JobEnvs.

Lemma jobenvs_environment_witness :
  fst (@jobenvs Examples.view Examples.classic ∅ Examples.site_job)
    = Ok (@settings_env Examples.view
            (overridden (job_settings Examples.site_job) "/srv/site")) ∧
  overridden (job_settings Examples.site_job) "/srv/site" !! "PYTHONPATH"
    = Some (VStr "/srv/site:lib").
Proof.
  destruct (@jobenvs_environment Examples.view Examples.classic ∅
              Examples.site_job "/srv/site")
    as (Henv & _ & _ & Hmodules & _).
  - vm_compute. reflexivity.
  - split; [exact Henv | exact Hmodules].
Defined.

(** C7, the claim as written fails: a library path set by the caller is
    not kept with [lib] appended to it, it is replaced by [lib]. *)
Lemma jobenvs_replaces_library_path :
  ∃ env, fst (@jobenvs Examples.view Examples.classic ∅ Examples.site_job)
           = Ok env ∧
         job_settings Examples.site_job !! "LD_LIBRARY_PATH"
           = Some (VStr "/usr/local/lib") ∧
         env !! "LD_LIBRARY_PATH" = Some "lib" ∧
         ¬ ∃ rest, env !! "LD_LIBRARY_PATH" = Some ("/usr/local/lib" +:+ rest).
Proof.
  eexists. split; [vm_compute; reflexivity|].
  split; [vm_compute; reflexivity|].
  split; [vm_compute; reflexivity|].
  intros [rest Hrest]. vm_compute in Hrest. discriminate.
Qed.

(** On the site job: the owner is untouched, the locale is written, and
    the module search path found there, [/srv/site], is written back
    followed by [:lib]. *)
Lemma jobenvs_writes_settings_witness :
  job_settings
    (snd (@jobenvs Examples.view Examples.classic ∅ Examples.site_job))
    !! "DISCO_JOB_OWNER"
    = job_settings Examples.site_job !! "DISCO_JOB_OWNER" ∧
  job_settings
    (snd (@jobenvs Examples.view Examples.classic ∅ Examples.site_job))
    !! "LC_ALL" = Some (VStr "C") ∧
  ∃ path,
    job_settings Examples.site_job !! "PYTHONPATH" = Some (VStr path) ∧
    job_settings
      (snd (@jobenvs Examples.view Examples.classic ∅ Examples.site_job))
      !! "PYTHONPATH" = Some (VStr (path +:+ ":lib")).
Proof.
  pose proof (@jobenvs_writes_settings Examples.view Examples.classic ∅
                Examples.site_job) as (_ & Hlocale & _ & Hframe & Hreturn & _).
  split; [apply Hframe; discriminate|].
  split; [exact Hlocale|].
  destruct (Hreturn _ eq_refl) as (_ & path & Hbefore & Hafter).
  exists path. split; [|exact Hafter].
  vm_compute in Hbefore. injection Hbefore as <-. vm_compute. reflexivity.
Defined.

(** C8, the claim as written fails: the job's settings are not the same
    after [jobenvs]; the table that had no locale has one. *)
Lemma jobenvs_mutates_settings :
  job_settings Examples.job !! "LC_ALL" = None ∧
  job_settings (snd (@jobenvs Examples.view Examples.classic ∅ Examples.job))
    !! "LC_ALL" = Some (VStr "C") ∧
  job_settings (snd (@jobenvs Examples.view Examples.classic ∅ Examples.job))
    ≠ job_settings Examples.job.
Proof.
  split; [vm_compute; reflexivity|].
  split; [vm_compute; reflexivity|].
  intros Heq.
  assert (job_settings
            (snd (@jobenvs Examples.view Examples.classic ∅ Examples.job))
            !! "LC_ALL" = job_settings Examples.job !! "LC_ALL") as Hlocale
    by (rewrite Heq; reflexivity).
  vm_compute in Hlocale. discriminate.
Qed.

(** Each call appends once more: the writes accumulate in the job. *)
Example jobenvs_twice :
  job_settings
    (snd (@jobenvs Examples.view Examples.classic ∅
            (snd (@jobenvs Examples.view Examples.classic ∅ Examples.site_job))))
    !! "PYTHONPATH" = Some (VStr "/srv/site:lib:lib").
Proof. vm_compute. reflexivity. Qed.

(** ** The node-side protocol *)

Create HintDb quiet discriminated.

Lemma quiet_mret {A} (a : A) : quiet (mret a : M Channel A).
Proof. intros ch. exists []. rewrite app_nil_r. split; [reflexivity | constructor]. Qed.

Lemma quiet_lift {A} (r : result A) : quiet (lift r).
Proof. intros ch. exists []. rewrite app_nil_r. split; [reflexivity | constructor]. Qed.

Lemma quiet_raise {A} (e : exn) : quiet (raise e : M Channel A).
Proof. intros ch. exists []. rewrite app_nil_r. split; [reflexivity | constructor]. Qed.

Lemma quiet_outcome (o : option exn) : quiet (outcome o).
Proof. destruct o; [apply quiet_raise | apply quiet_mret]. Qed.

Lemma quiet_send (m : message) : is_terminal m = false → quiet (send m).
Proof.
  intros Hm ch. exists [m]. split; [reflexivity|].
  constructor; [exact Hm | constructor].
Qed.

Lemma quiet_bind {A B} (m : M Channel A) (f : A → M Channel B) :
  quiet m → (∀ a, quiet (f a)) → quiet (m ≫= f).
Proof.
  intros Hm Hf ch. unfold mbind, M_bind, mbind_M.
  destruct (Hm ch) as (first & Hfirst & Hquiet).
  destruct (m ch) as [[a|e] ch']; simpl in Hfirst.
  - destruct (Hf a ch') as (second & Hsecond & Hquiet').
    exists (first ++ second). rewrite Hsecond, Hfirst, app_assoc.
    split; [reflexivity | apply Forall_app; auto].
  - exists first. auto.
Qed.

Lemma quiet_try_except {A} (body : M Channel A)
    (hs : list (handler Channel A)) :
  quiet body → Forall (fun h => ∀ e, quiet (snd h e)) hs →
  quiet (try_except body hs).
Proof.
  intros Hbody Hhs ch. unfold try_except.
  destruct (Hbody ch) as (first & Hfirst & Hquiet).
  destruct (body ch) as [[a|e] ch']; simpl in Hfirst.
  - exists first. auto.
  - assert (quiet (dispatch hs e)) as Hdispatch.
    { induction Hhs as [|[classes h] hs' Hh _ IH]; simpl.
      - apply quiet_raise.
      - destruct (isinstance_any e classes); [apply Hh | apply IH]. }
    destruct (Hdispatch ch') as (second & Hsecond & Hquiet').
    exists (first ++ second). rewrite Hsecond, Hfirst, app_assoc.
    split; [reflexivity | apply Forall_app; auto].
Qed.

#[local] Hint Resolve quiet_mret quiet_lift quiet_raise quiet_outcome
  quiet_send : quiet.

Lemma terminal_count_app (l1 l2 : list message) :
  terminal_count (l1 ++ l2) = (terminal_count l1 + terminal_count l2)%nat.
Proof. unfold terminal_count. rewrite filter_app, length_app. reflexivity. Qed.

Lemma terminal_count_quiet (l : list message) :
  Forall (fun m => is_terminal m = false) l → terminal_count l = 0%nat.
Proof.
  unfold terminal_count. induction 1 as [|m l Hm _ IH]; [reflexivity|].
  rewrite filter_cons_False by congruence. exact IH.
Qed.

(** After quiet statements, a terminal event sent next is the only one,
    and the last event. *)
Lemma terminal_after_quiet (extra : list message) (x : message) :
  Forall (fun m => is_terminal m = false) extra →
  is_terminal x = true →
  terminal_count (extra ++ [x]) = 1%nat ∧
  last (extra ++ [x]) = Some x ∧
  ∀ i m, (extra ++ [x]) !! i = Some m → is_terminal m = true →
         S i = length (extra ++ [x]).
Proof.
  intros Hquiet Hx. split; [|split].
  - rewrite terminal_count_app, (terminal_count_quiet _ Hquiet).
    unfold terminal_count. simpl. rewrite filter_cons_True by exact Hx.
    reflexivity.
  - apply last_snoc.
  - intros i m Hi Hm. rewrite length_app. simpl.
    destruct (decide (i < length extra)%nat) as [Hlt|Hge].
    + rewrite lookup_app_l in Hi by exact Hlt.
      rewrite Forall_lookup in Hquiet. specialize (Hquiet i m Hi). congruence.
    + apply lookup_lt_Some in Hi. rewrite length_app in Hi. simpl in Hi. lia.
Qed.

Section Protocol.
Context `{Node} `{CPickle}.

Lemma quiet_task_do (task : Task) (c : task_call) : quiet (task_do task c).
Proof.
  unfold task_do. apply quiet_bind; [|intros ?; apply quiet_outcome].
  intros ch. exists []. rewrite app_nil_r. split; [reflexivity | constructor].
Qed.

Lemma quiet_call (f : pyval) (task : Task) (job : Job) (jobargs : Dict) :
  quiet (call f task job jobargs).
Proof.
  unfold call. destruct f; try apply quiet_raise;
    destruct (call_function name task job jobargs) as [printed ending];
    (apply quiet_bind; [|intros ?; apply quiet_outcome]);
    intros ch; exists (Status <$> printed); (split; [reflexivity|]);
    apply Forall_fmap, Forall_true; reflexivity.
Qed.

Lemma quiet_run (self : Worker) (task : Task) (job : Job) (jobargs : Dict) :
  quiet (run self task job jobargs).
Proof. unfold run. apply quiet_bind; [auto with quiet|]. intros f. apply quiet_call. Qed.

Lemma quiet_end (self : Worker) (task : Task) (job : Job) (jobargs : Dict) :
  quiet (end_ self task job jobargs).
Proof.
  unfold end_. apply quiet_bind; [auto with quiet|]. intros save.
  apply quiet_bind.
  - destruct (negb (truthy save)); [auto with quiet|].
    destruct (String.eqb (task_mode task) "map"); [|auto with quiet].
    apply quiet_bind; auto with quiet.
  - intros [|]; (apply quiet_bind; [apply quiet_task_do|]);
      intros ?; apply quiet_send; reflexivity.
Qed.

Lemma quiet_runctx (statement : M Channel unit) (path : string) :
  quiet statement → quiet (runctx statement path).
Proof.
  intros Hs ch. unfold runctx.
  destruct (Hs ch) as (extra & Hextra & Hquiet).
  destruct (statement ch) as [r ch']. exists extra. auto.
Qed.

Lemma quiet_start (self : Worker) (task : Task) (job : Job) (jobargs : Dict) :
  quiet (start self task job jobargs).
Proof.
  unfold start.
  apply quiet_bind; [auto with quiet|]. intros max_mem.
  apply quiet_bind; [auto with quiet|]. intros _.
  apply quiet_bind; [auto with quiet|]. intros profile.
  apply quiet_bind; [|intros _; apply quiet_end].
  destruct (truthy profile); [|apply quiet_run].
  apply quiet_bind; [apply quiet_runctx, quiet_run|]. intros _.
  apply quiet_bind; [auto with quiet|]. intros contents.
  apply quiet_task_do.
Qed.

Lemma quiet_unpack (jobpack : JobPack) : quiet (unpack jobpack).
Proof.
  unfold unpack. apply quiet_bind; [|auto with quiet].
  apply quiet_try_except; [auto with quiet|].
  repeat constructor. simpl. auto with quiet.
Qed.

(** Before [main] reports how it ended, nothing terminal is sent. *)
Lemma quiet_main_task : quiet main_task.
Proof.
  unfold main_task.
  apply quiet_bind; [auto with quiet|]. intros _.
  apply quiet_bind; [auto with quiet|]. intros _.
  apply quiet_bind; [apply quiet_send; reflexivity|]. intros _.
  apply quiet_bind; [auto with quiet|]. intros jobpack.
  apply quiet_bind; [apply quiet_unpack|]. intros [[worker job] jobargs].
  apply quiet_bind; [auto with quiet|]. intros task.
  apply quiet_bind; [auto with quiet|]. intros _.
  apply quiet_start.
Qed.

(** [main] in closed form: what it does after its task ended. *)
Lemma main_run (ch : Channel) :
  main ch =
  match main_task ch with
  | (Ok _, ch') => (Ok tt, push WorkerDone ch')
  | (Raise e, ch') =>
      if isinstance_any e unavailable
      then (Raise e, push (DataUnavailable (exc_text e)) ch')
      else if isinstance e "Exception"
      then (Raise e, push (TaskFailed (force_utf8 (exc_text e))) ch')
      else (Raise e, ch')
  end.
Proof.
  unfold main, try_except. unfold mbind at 1, M_bind at 1, mbind_M at 1.
  destruct (main_task ch) as [[[]|e] ch']; [reflexivity|].
  cbn [dispatch]. fold unavailable.
  destruct (isinstance_any e unavailable); [reflexivity|].
  unfold isinstance_any at 1. cbn [existsb]. rewrite orb_false_r.
  destruct (isinstance e "Exception"); reflexivity.
Qed.

(** C1, as the code has it: when the task raises a [DataError], an
    [EnvironmentError] or a [MemoryError], [main] sends [DataUnavailable]
    with the traceback and raises the exception again; when it raises any
    other exception derived from [Exception], [main] sends [TaskFailed]
    and raises it again; an exception outside [Exception] goes through
    with nothing sent; and when the task returns, [main] sends
    [WorkerDone]. *)
Theorem main_classification (ch : Channel) :
  (∀ e ch', main_task ch = (Raise e, ch') →
     isinstance_any e unavailable = true →
     main ch = (Raise e, push (DataUnavailable (exc_text e)) ch')) ∧
  (∀ e ch', main_task ch = (Raise e, ch') →
     isinstance_any e unavailable = false →
     isinstance e "Exception" = true →
     main ch = (Raise e, push (TaskFailed (force_utf8 (exc_text e))) ch')) ∧
  (∀ e ch', main_task ch = (Raise e, ch') →
     isinstance_any e unavailable = false →
     isinstance e "Exception" = false →
     main ch = (Raise e, ch')) ∧
  (∀ ch', main_task ch = (Ok tt, ch') →
     main ch = (Ok tt, push WorkerDone ch')).
Proof.
  repeat split; intros; rewrite main_run;
    repeat match goal with
    | E : _ = _ |- _ => rewrite E; clear E
    end; reflexivity.
Qed.

(** C2, as the code has it: started on a fresh channel, [main] sends one
    terminal event, as its last event, when its task returns
    ([WorkerDone]) or raises an exception one of its two [except] clauses
    names (a failure event, after which that same exception is raised
    again); it sends no terminal event when the task raises an exception
    outside [Exception]. A terminal event is never followed by another
    event, and announcing the process id is not terminal. *)
Theorem main_terminal_signal :
  let ended := fst (main fresh) in
  let log := sent (snd (main fresh)) in
  (∀ i m, log !! i = Some m → is_terminal m = true → S i = length log) ∧
  (∀ pid, is_terminal (AnnouncePID pid) = false) ∧
  match ended with
  | Ok _ => terminal_count log = 1%nat ∧ last log = Some WorkerDone
  | Raise e =>
      fst (main_task fresh) = Raise e ∧
      if (isinstance_any e unavailable || isinstance e "Exception")%bool
      then terminal_count log = 1%nat ∧
           (last log = Some (DataUnavailable (exc_text e)) ∨
            last log = Some (TaskFailed (force_utf8 (exc_text e))))
      else terminal_count log = 0%nat
  end.
Proof.
  cbv zeta. rewrite main_run.
  destruct (quiet_main_task fresh) as (extra & Hextra & Hquiet).
  simpl in Hextra.
  destruct (main_task fresh) as [[[]|e] ch'];
    cbn [fst snd] in *.
  - destruct (terminal_after_quiet extra WorkerDone Hquiet eq_refl)
      as (Hone & Hlast & Hpos).
    unfold push; cbn [sent]. rewrite Hextra. auto.
  - destruct (isinstance_any e unavailable) eqn:Hunavailable;
      [|destruct (isinstance e "Exception") eqn:Hexception];
      cbn [fst snd push sent]; rewrite Hextra;
      rewrite ?Hunavailable, ?Hexception; cbn [orb].
    + destruct (terminal_after_quiet extra (DataUnavailable (exc_text e))
                  Hquiet eq_refl) as (Hone & Hlast & Hpos).
      auto 10.
    + destruct (terminal_after_quiet extra
                  (TaskFailed (force_utf8 (exc_text e))) Hquiet eq_refl)
        as (Hone & Hlast & Hpos).
      auto 10.
    + split; [|split; [reflexivity|]].
      * intros i m Hi Hm. rewrite Forall_lookup in Hquiet.
        specialize (Hquiet i m Hi). congruence.
      * split; [reflexivity|]. apply terminal_count_quiet. exact Hquiet.
Qed.

(** What [end] does with the task: one call, [send] or [save], decided by
    the values the worker itself stores under [save] and [reduce]. *)
Lemma end_one_call (self : Worker) (task : Task) (job : Job) (jobargs : Dict)
    (ch : Channel) (save reduce_ : pyval) :
  worker_items self !! "save" = Some save →
  worker_items self !! "reduce" = Some reduce_ →
  task_calls (snd (end_ self task job jobargs ch)) =
  task_calls ch ++
    [if (negb (truthy save)
         || (String.eqb (task_mode task) "map" && truthy reduce_))%bool
     then TaskSend else TaskSave].
Proof.
  intros Hsave Hreduce. unfold end_, subscript. rewrite Hsave, Hreduce.
  unfold mbind, M_bind, mbind_M, lift, task_do, update, send, outcome.
  destruct (truthy save); simpl.
  - destruct (String.eqb (task_mode task) "map"); simpl.
    + destruct (truthy reduce_); simpl;
        destruct (task_outcome task _); reflexivity.
    + destruct (task_outcome task _); reflexivity.
  - destruct (task_outcome task _); reflexivity.
Qed.

End Protocol.

(** The four ways [main] ends, on a node whose map function ends with a
    full disk, with a bad value, with [sys.exit()], or normally. *)
Lemma main_classification_witness :
  @main (Examples.node (Some (IOError "IOError: disk full")))
        Examples.pickle fresh
    = (Raise (IOError "IOError: disk full"),
       push (DataUnavailable "IOError: disk full")
         {| sent := [AnnouncePID "4242"; Status "3 entries mapped"];
            task_calls := [] |}) ∧
  @main (Examples.node (Some (ValueError "ValueError: bad record")))
        Examples.pickle fresh
    = (Raise (ValueError "ValueError: bad record"),
       push (TaskFailed "ValueError: bad record")
         {| sent := [AnnouncePID "4242"; Status "3 entries mapped"];
            task_calls := [] |}) ∧
  @main (Examples.node (Some (SystemExit "SystemExit: 1")))
        Examples.pickle fresh
    = (Raise (SystemExit "SystemExit: 1"),
       {| sent := [AnnouncePID "4242"; Status "3 entries mapped"];
          task_calls := [] |}) ∧
  @main (Examples.node None) Examples.pickle fresh
    = (Ok tt,
       push WorkerDone
         {| sent := [AnnouncePID "4242"; Status "3 entries mapped";
                     Status "Results sent to master"];
            task_calls := [TaskSend] |}).
Proof.
  split; [|split; [|split]].
  - destruct (@main_classification
                (Examples.node (Some (IOError "IOError: disk full")))
                Examples.pickle fresh) as (Hunavailable & _ & _ & _).
    apply Hunavailable; vm_compute; reflexivity.
  - destruct (@main_classification
                (Examples.node (Some (ValueError "ValueError: bad record")))
                Examples.pickle fresh) as (_ & Hfailed & _ & _).
    apply Hfailed; vm_compute; reflexivity.
  - destruct (@main_classification
                (Examples.node (Some (SystemExit "SystemExit: 1")))
                Examples.pickle fresh) as (_ & _ & Hthrough & _).
    apply Hthrough; vm_compute; reflexivity.
  - destruct (@main_classification (Examples.node None) Examples.pickle fresh)
      as (_ & _ & _ & Hdone).
    apply Hdone; vm_compute; reflexivity.
Defined.

(** C1, the claim as written fails: a map function that leaves through
    [sys.exit()] raises an exception that is none of the three reported as
    [DataUnavailable], and [main] does not send [TaskFailed] for it; it
    sends nothing after the function's own output. *)
Lemma main_system_exit_not_failed :
  fst (@main_task (Examples.node (Some (SystemExit "SystemExit: 1")))
                  Examples.pickle fresh)
    = Raise (SystemExit "SystemExit: 1") ∧
  isinstance_any (SystemExit "SystemExit: 1") unavailable = false ∧
  sent (snd (@main (Examples.node (Some (SystemExit "SystemExit: 1")))
                   Examples.pickle fresh))
    = [AnnouncePID "4242"; Status "3 entries mapped"] ∧
  ∀ text, TaskFailed text ∉
    sent (snd (@main (Examples.node (Some (SystemExit "SystemExit: 1")))
                     Examples.pickle fresh)).
Proof.
  split; [vm_compute; reflexivity|].
  split; [vm_compute; reflexivity|].
  split; [vm_compute; reflexivity|].
  intros text Hin. vm_compute in Hin.
  apply elem_of_cons in Hin as [Heq|Hin]; [discriminate|].
  apply elem_of_cons in Hin as [Heq|Hin]; [discriminate|].
  inversion Hin.
Qed.

Lemma main_terminal_signal_witness :
  terminal_count
    (sent (snd (@main (Examples.node None) Examples.pickle fresh))) = 1%nat ∧
  last (sent (snd (@main (Examples.node None) Examples.pickle fresh)))
    = Some WorkerDone.
Proof.
  pose proof (@main_terminal_signal (Examples.node None) Examples.pickle)
    as (_ & _ & Hended).
  exact Hended.
Defined.

(** C2, the claim as written fails: when the worker is interrupted while
    its map function runs, [main] ends with no terminal event sent, not
    with one. *)
Lemma main_interrupted_no_terminal :
  fst (@main (Examples.node (Some (KeyboardInterrupt "KeyboardInterrupt")))
             Examples.pickle fresh)
    = Raise (KeyboardInterrupt "KeyboardInterrupt") ∧
  terminal_count
    (sent (snd (@main (Examples.node
                         (Some (KeyboardInterrupt "KeyboardInterrupt")))
                      Examples.pickle fresh))) = 0%nat ∧
  terminal_count
    (sent (snd (@main (Examples.node
                         (Some (KeyboardInterrupt "KeyboardInterrupt")))
                      Examples.pickle fresh))) ≠ 1%nat.
Proof.
  split; [vm_compute; reflexivity|].
  split; [vm_compute; reflexivity|].
  vm_compute. discriminate.
Qed.

(** C5, the code at the input where it departs from the claim: a
    reduce task of a worker built with the default [save], run with
    [save=True] among the call-time arguments. The resolved [save] is
    true and the task is not a map, so the output is to be saved; [end]
    reads the worker's own [save], which is false, and sends it. *)
Theorem end_ignores_call_time_save :
  getitem Examples.reducer "save" Examples.job {[ "save" := VBool true ]}
    = Ok (VBool true) ∧
  task_mode Examples.reduce_task = "reduce" ∧
  worker_items Examples.reducer !! "save" = Some (VBool false) ∧
  @end_ (Examples.node None) Examples.reducer Examples.reduce_task
        Examples.job {[ "save" := VBool true ]} fresh
    = (Ok tt, {| sent := [Status "Results sent to master"];
                 task_calls := [TaskSend] |}).
Proof. repeat split; vm_compute; reflexivity. Qed.

(** ** The job pack's round trip *)

Lemma pyval_eqb_eq (a b : pyval) : Examples.pyval_eqb a b = true → a = b.
Proof.
  revert a b. fix IH 1. intros a b.
  destruct a as [|x|x|x|x|x|xs|xs], b as [|y|y|y|y|y|ys|ys];
    simpl; try discriminate; try reflexivity.
  - intros Heq. apply bool_decide_eq_true in Heq. congruence.
  - intros Heq. apply Z.eqb_eq in Heq. congruence.
  - intros Heq. apply bool_decide_eq_true in Heq. congruence.
  - intros Heq. apply bool_decide_eq_true in Heq. congruence.
  - intros Heq. apply bool_decide_eq_true in Heq. congruence.
  - intros Heq. f_equal. revert ys Heq.
    induction xs as [|x xs' IHxs]; intros [|y ys']; try discriminate.
    + reflexivity.
    + intros Heq. apply andb_true_iff in Heq as [Hhead Htail].
      f_equal; [apply IH; exact Hhead | apply IHxs; exact Htail].
  - intros Heq. f_equal. revert ys Heq.
    induction xs as [|[k x] xs' IHxs]; intros [|[l y] ys']; try discriminate.
    + reflexivity.
    + intros Heq. apply andb_true_iff in Heq as [Hhead Htail].
      apply andb_true_iff in Hhead as [Hkey Hvalue].
      apply bool_decide_eq_true in Hkey.
      f_equal; [f_equal; [exact Hkey | apply IH; exact Hvalue]
               | apply IHxs; exact Htail].
Qed.

Lemma dict_eqb_eq (a b : Dict) : Examples.dict_eqb a b = true → a = b.
Proof.
  unfold Examples.dict_eqb. intros Heq. apply pyval_eqb_eq in Heq.
  injection Heq as Heq. apply map_to_list_inj. rewrite Heq. reflexivity.
Qed.

Lemma triple_eqb_eq (a b : Worker * Job * Dict) :
  Examples.triple_eqb a b = true → a = b.
Proof.
  destruct a as [[[m1 i1] [t1 s1]] a1], b as [[[m2 i2] [t2 s2]] a2].
  unfold Examples.triple_eqb. cbn [worker_module worker_items job_attrs job_settings].
  rewrite !andb_true_iff, bool_decide_eq_true.
  intros [[[[-> Hitems] Hattrs] Hsettings] Hargs].
  apply dict_eqb_eq in Hitems, Hattrs, Hsettings, Hargs. congruence.
Qed.

(** The example serializer keeps the library's promise. *)
Lemma archive_round_trips : @round_trips Examples.archive.
Proof.
  intros triple data. unfold dumps, loads, Examples.archive.
  destruct (Examples.triple_eqb triple _) eqn:Heq; [|discriminate].
  apply triple_eqb_eq in Heq as ->. intros [= <-]. reflexivity.
Qed.

Section RoundTrip.
Context `{Node} `{CPickle}.


End RoundTrip.



(** * Further properties *)

(** ** Construction *)

Lemma Worker_init_items (module : string) (kwargs : Dict) (key : string) :
  worker_items (Worker_init module kwargs) !! key =
  match kwargs !! key with
  | Some v => Some v
  | None => defaults !! key
  end.
Proof.
  unfold Worker_init, dict_update. simpl.
  rewrite lookup_union. destruct (kwargs !! key), (defaults !! key); reflexivity.
Qed.

(** X1: a worker is built from the defaults with each keyword argument
    replacing the entry of its own key and no other. A key given to the
    constructor has the value given and any other key has its default, so
    [self[key]] cannot raise [KeyError] for any of the default keys; a key
    that is neither given nor a default is not stored. *)
Theorem Worker_init_lookup (module : string) (kwargs : Dict) (key : string) :
  (∀ v, kwargs !! key = Some v →
        subscript (worker_items (Worker_init module kwargs)) key = Ok v) ∧
  (∀ dflt, kwargs !! key = None → defaults !! key = Some dflt →
        subscript (worker_items (Worker_init module kwargs)) key = Ok dflt) ∧
  (kwargs !! key = None → defaults !! key = None →
        worker_items (Worker_init module kwargs) !! key = None ∧
        subscript (worker_items (Worker_init module kwargs)) key
          = Raise (KeyError key)).
Proof.
  unfold subscript. rewrite Worker_init_items.
  repeat split; intros; repeat match goal with
    | E : _ !! _ = _ |- _ => rewrite E; clear E
    end; reflexivity.
Qed.

Lemma Worker_init_lookup_witness :
  subscript (worker_items Examples.custom) "save" = Ok (VBool true) ∧
  subscript (worker_items Examples.custom) "partitions" = Ok (VInt 1) ∧
  subscript (worker_items Examples.custom) "sort"
    = Raise (KeyError "sort").
Proof.
  split; [|split].
  - destruct (Worker_init_lookup "analytics.jobs.wordcount"
                (list_to_map [("save", VBool true);
                              ("combiner", VFun "fun_combine")]) "save")
      as (Hgiven & _ & _).
    apply Hgiven. vm_compute. reflexivity.
  - destruct (Worker_init_lookup "analytics.jobs.wordcount"
                (list_to_map [("save", VBool true);
                              ("combiner", VFun "fun_combine")]) "partitions")
      as (_ & Hdefault & _).
    apply Hdefault; vm_compute; reflexivity.
  - destruct (Worker_init_lookup "analytics.jobs.wordcount"
                (list_to_map [("save", VBool true);
                              ("combiner", VFun "fun_combine")]) "sort")
      as (_ & _ & Hmissing).
    apply Hmissing; vm_compute; reflexivity.
Defined.

Lemma replace_char_clean (old new : ascii) (s : string) :
  old ≠ new →
  String.length (replace_char old new s) = String.length s ∧
  ∀ n, String.get n (replace_char old new s) ≠ Some old.
Proof.
  intros Hne. induction s as [|c s [IHlen IHget]]; simpl.
  - split; [reflexivity|]. intros n. discriminate.
  - split; [congruence|]. intros [|n]; [|apply IHget].
    destruct (Ascii.eqb_spec c old); congruence.
Qed.

(** X2: for a class in a module whose name starts with neither a dot nor
    a slash, [bin] is a path under [lib/]: the module name with every dot
    turned into a slash (same length, no dot left), followed by [.py]. *)
Theorem bin_under_lib (self : Worker) :
  (∀ rest, worker_module self ≠ String "." rest) →
  (∀ rest, worker_module self ≠ String "/" rest) →
  bin self = "lib/" +:+ replace_char "." "/" (worker_module self) +:+ ".py" ∧
  String.length (replace_char "." "/" (worker_module self))
    = String.length (worker_module self) ∧
  ∀ n, String.get n (replace_char "." "/" (worker_module self)) ≠ Some "."%char.
Proof.
  intros Hdot Hslash. split; [|apply replace_char_clean; discriminate].
  unfold bin, path_join.
  destruct (worker_module self) as [|c rest]; [reflexivity|]. simpl.
  destruct (Ascii.eqb_spec c "."); [subst c; exfalso; eapply Hdot; reflexivity|].
  destruct (ascii_dec c "/") as [->|Hc]; [exfalso; eapply Hslash; reflexivity|].
  destruct c as [[] [] [] [] [] [] [] []]; try reflexivity; congruence.
Qed.

Lemma bin_under_lib_witness :
  bin Examples.custom = "lib/analytics/jobs/wordcount.py".
Proof.
  destruct (bin_under_lib Examples.custom) as (Hbin & _ & _).
  - intros rest. discriminate.
  - intros rest. discriminate.
  - exact Hbin.
Defined.

(** ** More on the job dictionary *)

Ltac push_lookups_in Hyp :=
  cbv beta zeta in Hyp; rewrite ?getitem_resolved in Hyp by assumption;
  repeat (rewrite bind_Ok_l in Hyp; cbv beta in Hyp).

Lemma index_ids_readable (entries : list (string * string)) (ns : list Z) :
  index_ids entries = Ok ns →
  ∀ id url, (id, url) ∈ entries → ∃ n, py_int id = Ok n.
Proof.
  revert ns. induction entries as [|[id0 url0] rest IH]; intros ns; simpl.
  - intros _ id url Hin. inversion Hin.
  - intros Hb. apply bind_Ok in Hb as (k & Hk & Hb).
    apply bind_Ok in Hb as (ks & Hks & _).
    intros id url Hin. apply elem_of_cons in Hin as [[= -> ->]|Hin]; eauto.
Qed.

Section JobDictSteps.
Context `{DiscoUtil}.

Lemma partition_ids_readable (input : list Input) (ids : list Z) :
  partition_ids input = Ok ids → index_readable input.
Proof.
  revert ids. induction input as [|dir rest IH]; intros ids; simpl.
  - intros _ dir Hin. inversion Hin.
  - intros Hb. apply bind_Ok in Hb as (entries & Hread & Hb).
    apply bind_Ok in Hb as (ns & Hns & Hb).
    apply bind_Ok in Hb as (more & Hmore & _).
    intros dir' Hin. apply elem_of_cons in Hin as [->|Hin].
    + exists entries. split; [exact Hread|].
      apply (index_ids_readable _ _ Hns).
    + apply (IH _ Hmore). exact Hin.
Qed.

(** Every step behind a returned job dictionary. *)
Lemma jobdict_steps (self : Worker) (job : Job) (jobargs : Dict) (d : JobDict) :
  jobdict self job jobargs = Ok d →
  jd_worker d = bin self ∧
  jd_has_map d = truthy (resolved self "map" job jobargs) ∧
  jd_has_reduce d = truthy (resolved self "reduce" job jobargs) ∧
  jd_profile d = resolved self "profile" job jobargs ∧
  jd_scheduler d = resolved self "scheduler" job jobargs ∧
  job_attrs job !! "name" = Some (jd_prefix d) ∧
  job_settings job !! "DISCO_JOB_OWNER" = Some (jd_owner d) ∧
  (truthy (resolved self "map" job jobargs) = false →
   ispartitioned (jd_input d) = true →
   ∃ ids, partition_ids (jd_input d) = Ok ids ∧ ids ≠ []).
Proof.
  intros Hd. pose proof (jobdict_binds _ _ _ _ Hd) as Hbind.
  unfold jobdict in Hd. push_lookups_in Hd.
  apply bind_Ok in Hd as (input & Hinput & Hd).
  apply bind_Ok in Hd as (nr & Hnr & Hd).
  push_lookups_in Hd.
  apply bind_Ok in Hd as (prefix & Hprefix & Hd).
  push_lookups_in Hd.
  apply bind_Ok in Hd as (owner & Howner & [= <-]). simpl.
  unfold getattr in Hprefix. unfold subscript in Howner.
  destruct (job_attrs job !! "name") as [name|]; [|discriminate].
  destruct (job_settings job !! "DISCO_JOB_OWNER") as [own|]; [|discriminate].
  injection Hprefix as <-. injection Howner as <-.
  repeat (split; [reflexivity|]).
  intros Hmap Hpart. rewrite Hmap, Hpart in Hnr.
  apply bind_Ok in Hnr as (ids & Hids & Hnr).
  apply bind_Ok in Hnr as (largest & Hmax & _).
  exists ids. split; [exact Hids|].
  intros ->. discriminate.
Qed.

(** X3: what a returned job dictionary holds. [worker] is the worker's
    [bin]; [map?] and [reduce?] are the truth values of the resolved [map]
    and [reduce]; [profile?] and [scheduler] are the resolved values as
    they are; [prefix] is the job's own [name] attribute and [owner] the
    job's [DISCO_JOB_OWNER] setting, neither of which the call-time
    arguments can replace; and [input] is what [inputlist] made of the
    resolved input (an empty tuple when that is falsy), asked with
    [partition=None] under a map and [partition=False] without. *)
Theorem jobdict_fields (self : Worker) (job : Job) (jobargs : Dict)
    (d : JobDict) :
  jobdict self job jobargs = Ok d →
  jd_worker d = bin self ∧
  jd_has_map d = truthy (resolved self "map" job jobargs) ∧
  jd_has_reduce d = truthy (resolved self "reduce" job jobargs) ∧
  jd_profile d = resolved self "profile" job jobargs ∧
  jd_scheduler d = resolved self "scheduler" job jobargs ∧
  job_attrs job !! "name" = Some (jd_prefix d) ∧
  job_settings job !! "DISCO_JOB_OWNER" = Some (jd_owner d) ∧
  inputlist (py_or (resolved self "input" job jobargs) (VSeq []))
            (partition_arg (jd_has_map d)) (job_settings job)
    = Ok (jd_input d).
Proof.
  intros Hd.
  destruct (jobdict_steps self job jobargs d Hd)
    as (Hbin & Hmap & Hreduce & Hprofile & Hsched & Hname & Howner & _).
  destruct (jobdict_inv self job jobargs d Hd) as [Hinput _].
  rewrite Hmap. auto 10.
Qed.

(** X4: what [jobdict] cannot do without. It returns a dictionary only
    for a job that has a [name] attribute and a [DISCO_JOB_OWNER] setting;
    and when there is no map and the input is partitioned, only if the
    index of every input can be read, every id in it is an integer
    literal, and at least one id is enumerated. *)
Theorem jobdict_requires (self : Worker) (job : Job) (jobargs : Dict)
    (d : JobDict) :
  jobdict self job jobargs = Ok d →
  is_Some (job_attrs job !! "name") ∧
  is_Some (job_settings job !! "DISCO_JOB_OWNER") ∧
  (jd_has_map d = false → ispartitioned (jd_input d) = true →
   index_readable (jd_input d) ∧ ∃ n, enumerates (jd_input d) n).
Proof.
  intros Hd.
  destruct (jobdict_steps self job jobargs d Hd)
    as (_ & Hmap & _ & _ & _ & Hname & Howner & Hindex).
  split; [eauto|]. split; [eauto|].
  intros Hnomap Hpart. rewrite Hmap in Hnomap.
  destruct (Hindex Hnomap Hpart) as (ids & Hids & Hsome).
  split; [exact (partition_ids_readable _ _ Hids)|].
  destruct ids as [|n ids']; [congruence|].
  exists n. apply (partition_ids_enumerates _ _ Hids). left.
Qed.

(** X5: partitioned input whose indices enumerate nothing. Without a
    map, and with call-time arguments that bind in [getitem], [jobdict]
    takes the maximum of an empty sequence and raises [ValueError]; it
    does so before it looks at [merge_partitions], which therefore cannot
    bring the count down to one. *)
Theorem jobdict_empty_index (self : Worker) (job : Job) (jobargs : Dict)
    (input : list Input) :
  accepts getitem_params jobargs →
  truthy (resolved self "map" job jobargs) = false →
  inputlist (py_or (resolved self "input" job jobargs) (VSeq []))
            (Some false) (job_settings job) = Ok input →
  ispartitioned input = true →
  partition_ids input = Ok [] →
  jobdict self job jobargs
    = Raise (ValueError "max() arg is an empty sequence").
Proof.
  intros Hbind Hmap Hinput Hpart Hids. unfold jobdict.
  cbv beta zeta. rewrite ?getitem_resolved by assumption.
  repeat (rewrite bind_Ok_l; cbv beta).
  rewrite Hmap. simpl partition_arg. rewrite Hinput, bind_Ok_l. cbv beta.
  rewrite Hpart, Hids. reflexivity.
Qed.

End JobDictSteps.

(** The call-time argument [name] does not reach the prefix. *)
Lemma jobdict_fields_witness :
  job_attrs Examples.job !! "name" = Some (jd_prefix Examples.mapper_dict) ∧
  jd_worker Examples.mapper_dict = bin Examples.mapper.
Proof.
  destruct (@jobdict_fields Examples.util Examples.mapper Examples.job
              {[ "name" := VStr "renamed" ]} Examples.mapper_dict)
    as (Hbin & _ & _ & _ & _ & Hname & _).
  - vm_compute. reflexivity.
  - split; [exact Hname | exact Hbin].
Defined.

Lemma jobdict_requires_witness :
  is_Some (job_settings Examples.job !! "DISCO_JOB_OWNER").
Proof.
  destruct (@jobdict_requires Examples.util Examples.mapper Examples.job ∅
              Examples.mapper_dict) as (_ & Howner & _).
  - vm_compute. reflexivity.
  - exact Howner.
Defined.

Lemma jobdict_empty_index_witness :
  @jobdict Examples.bare_util Examples.reducer Examples.job
           {[ "merge_partitions" := VBool true ]}
    = Raise (ValueError "max() arg is an empty sequence").
Proof.
  apply (@jobdict_empty_index Examples.bare_util Examples.reducer Examples.job
           {[ "merge_partitions" := VBool true ]}
           ["dir://cnode03/wordcount/" : @Input Examples.bare_util]);
    [repeat constructor | vm_compute; reflexivity..].
Defined.

(** ** More on the job environment *)

Section JobEnvsAgain.
Context `{SettingsEnv}.

(** X6: a module search path that is not a string. [jobenvs] raises
    [TypeError] from the join, and by then it has written the locale and
    the library path into the job's settings: the job is left with
    these two settings changed, the path itself as it was, and no
    environment. *)
Theorem jobenvs_type_error (self : Worker) (jobargs : Dict) (job : Job)
    (v : pyval) :
  job_settings job !! "PYTHONPATH" = Some v →
  (∀ path, v ≠ VStr path) →
  let after := snd (jobenvs self jobargs job) in
  fst (jobenvs self jobargs job)
    = Raise (TypeError "sequence item: expected string") ∧
  job_settings after !! "LC_ALL" = Some (VStr "C") ∧
  job_settings after !! "LD_LIBRARY_PATH" = Some (VStr "lib") ∧
  job_settings after !! "PYTHONPATH" = Some v.
Proof.
  intros Hv Hnot. cbv zeta. rewrite jobenvs_run.
  unfold dict_get. rewrite Hv.
  destruct v; try (exfalso; eapply Hnot; reflexivity);
    cbn [fst snd with_settings job_settings];
    (split; [reflexivity|]);
    (split; [rewrite lookup_insert_ne by discriminate;
             apply lookup_insert_eq|]);
    (split; [apply lookup_insert_eq|]);
    rewrite !lookup_insert_ne by discriminate; exact Hv.
Qed.

Lemma overridden_again (settings : Settings) (path path' : string) :
  overridden (overridden settings path) path' = overridden settings path'.
Proof.
  apply map_eq. intros key. rewrite !overridden_lookup.
  repeat case_decide; reflexivity.
Qed.

(** X7: [jobenvs] is not idempotent. Called again on the same job, by any
    worker with any arguments, it finds the path it wrote and appends to
    it once more: the second call returns the view of the job's settings
    as it leaves them, with the locale and the library path as before
    and the original module search path followed by [:lib] twice. *)
Theorem jobenvs_twice_appends (self self' : Worker) (jobargs jobargs' : Dict)
    (job : Job) (path : string) :
  dict_get (job_settings job) "PYTHONPATH" (VStr "") = VStr path →
  let again := jobenvs self' jobargs' (snd (jobenvs self jobargs job)) in
  fst again = Ok (settings_env (job_settings (snd again))) ∧
  job_settings (snd again) !! "PYTHONPATH"
    = Some (VStr ((path +:+ ":" +:+ "lib") +:+ ":" +:+ "lib")) ∧
  job_settings (snd again) !! "LD_LIBRARY_PATH" = Some (VStr "lib") ∧
  job_settings (snd again) !! "LC_ALL" = Some (VStr "C").
Proof.
  intros Hpath. cbv zeta. rewrite (jobenvs_run self), Hpath.
  cbn [snd].
  assert (jobenvs self' jobargs'
            (with_settings job (overridden (job_settings job) path))
          = (Ok (settings_env
                   (overridden (job_settings job) (path +:+ ":" +:+ "lib"))),
             with_settings job
               (overridden (job_settings job) (path +:+ ":" +:+ "lib"))))
    as ->.
  { rewrite jobenvs_run. cbn [with_settings job_settings job_attrs].
    unfold dict_get. rewrite overridden_lookup.
    rewrite decide_True by reflexivity.
    rewrite overridden_again. reflexivity. }
  cbn [fst snd with_settings job_settings].
  rewrite !overridden_lookup.
  repeat split.
Qed.

End JobEnvsAgain.

Lemma jobenvs_type_error_witness :
  fst (@jobenvs Examples.view Examples.classic ∅ Examples.odd_job)
    = Raise (TypeError "sequence item: expected string") ∧
  job_settings (snd (@jobenvs Examples.view Examples.classic ∅ Examples.odd_job))
    !! "LC_ALL" = Some (VStr "C").
Proof.
  destruct (@jobenvs_type_error Examples.view Examples.classic ∅
              Examples.odd_job (VSeq [VStr "/srv/site"]))
    as (Hraises & Hlocale & _).
  - vm_compute. reflexivity.
  - intros path. discriminate.
  - split; [exact Hraises | exact Hlocale].
Defined.

Lemma jobenvs_twice_appends_witness :
  job_settings
    (snd (@jobenvs Examples.view Examples.custom ∅
            (snd (@jobenvs Examples.view Examples.classic ∅
                    Examples.site_job))))
    !! "PYTHONPATH" = Some (VStr "/srv/site:lib:lib").
Proof.
  destruct (@jobenvs_twice_appends Examples.view Examples.classic
              Examples.custom ∅ ∅ Examples.site_job "/srv/site")
    as (_ & Hmodules & _).
  - vm_compute. reflexivity.
  - exact Hmodules.
Defined.

(** ** More on the node-side protocol *)

Section ProtocolSteps.
Context `{Node} `{CPickle}.

(** [end] in closed form, for a worker that stores both keys. *)
Lemma end_run (self : Worker) (task : Task) (job : Job) (jobargs : Dict)
    (ch : Channel) (save reduce_ : pyval) :
  worker_items self !! "save" = Some save →
  worker_items self !! "reduce" = Some reduce_ →
  end_ self task job jobargs ch =
  (if (negb (truthy save)
       || (String.eqb (task_mode task) "map" && truthy reduce_))%bool
   then task_do task TaskSend;; send (Status "Results sent to master")
   else task_do task TaskSave;; send (Status "Results saved to DDFS")) ch.
Proof.
  intros Hsave Hreduce. unfold end_, subscript. rewrite Hsave, Hreduce.
  rewrite bind_M_run. unfold lift at 1.
  destruct (truthy save); cbn [negb orb].
  - destruct (String.eqb (task_mode task) "map"); cbn [andb].
    + rewrite !bind_M_run. unfold lift at 1. cbn [mret M_ret mret_M].
      destruct (truthy reduce_); reflexivity.
    + reflexivity.
  - reflexivity.
Qed.

(** One call on the task and the status line that goes with it. *)
Lemma disposal_run (task : Task) (c : task_call) (text : string)
    (ch : Channel) :
  (task_do task c;; send (Status text)) ch =
  match task_outcome task c with
  | None => (Ok tt, {| sent := sent ch ++ [Status text];
                       task_calls := task_calls ch ++ [c] |})
  | Some e => (Raise e, {| sent := sent ch;
                           task_calls := task_calls ch ++ [c] |})
  end.
Proof.
  unfold task_do, send, update, outcome, push.
  unfold mbind, M_bind, mbind_M. simpl.
  destruct (task_outcome task c); reflexivity.
Qed.

(** How [end] leaves the channel, whatever the worker stores. *)
Lemma end_inv (self : Worker) (task : Task) (job : Job) (jobargs : Dict)
    (ch ch' : Channel) (r : result unit) :
  end_ self task job jobargs ch = (r, ch') →
  match r with
  | Ok _ =>
      (sent ch' = sent ch ++ [Status "Results sent to master"] ∧
       task_calls ch' = task_calls ch ++ [TaskSend] ∧
       task_outcome task TaskSend = None) ∨
      (sent ch' = sent ch ++ [Status "Results saved to DDFS"] ∧
       task_calls ch' = task_calls ch ++ [TaskSave] ∧
       task_outcome task TaskSave = None)
  | Raise e => sent ch' = sent ch
  end.
Proof.
  unfold end_. rewrite bind_M_run. unfold lift at 1.
  destruct (subscript (worker_items self) "save") as [save|e0];
    [|intros [= <- <-]; reflexivity].
  rewrite bind_M_run.
  assert (∀ to_master : bool,
    (if to_master
     then task_do task TaskSend;; send (Status "Results sent to master")
     else task_do task TaskSave;; send (Status "Results saved to DDFS")) ch
    = (r, ch') →
    match r with
    | Ok _ =>
        (sent ch' = sent ch ++ [Status "Results sent to master"] ∧
         task_calls ch' = task_calls ch ++ [TaskSend] ∧
         task_outcome task TaskSend = None) ∨
        (sent ch' = sent ch ++ [Status "Results saved to DDFS"] ∧
         task_calls ch' = task_calls ch ++ [TaskSave] ∧
         task_outcome task TaskSave = None)
    | Raise e => sent ch' = sent ch
    end) as Hdisposal.
  { intros [|]; rewrite disposal_run;
      [destruct (task_outcome task TaskSend) eqn:Hout
      |destruct (task_outcome task TaskSave) eqn:Hout];
      intros [= <- <-]; simpl; auto. }
  destruct (negb (truthy save)).
  - apply (Hdisposal true).
  - destruct (String.eqb (task_mode task) "map").
    + rewrite bind_M_run. unfold lift at 1.
      destruct (subscript (worker_items self) "reduce") as [reduce_|e0];
        [|intros [= <- <-]; reflexivity].
      apply Hdisposal.
    + apply (Hdisposal false).
Qed.

(** X8: [end] disposes of the output once. For a worker that stores
    [save] and [reduce], it makes exactly one call on the task: [send]
    when the stored [save] is falsy or the task is a map and the stored
    [reduce] is truthy, [save] otherwise. If that call returns, [end]
    sends the one status line that goes with it and returns; if the call
    raises, [end] raises the same exception and sends nothing. *)
Theorem end_disposes_once (self : Worker) (task : Task) (job : Job)
    (jobargs : Dict) (ch : Channel) (save reduce_ : pyval) :
  worker_items self !! "save" = Some save →
  worker_items self !! "reduce" = Some reduce_ →
  let to_master :=
    (negb (truthy save)
     || (String.eqb (task_mode task) "map" && truthy reduce_))%bool in
  let c := if to_master then TaskSend else TaskSave in
  let text := if to_master then "Results sent to master"
              else "Results saved to DDFS" in
  task_calls (snd (end_ self task job jobargs ch)) = task_calls ch ++ [c] ∧
  match task_outcome task c with
  | None =>
      fst (end_ self task job jobargs ch) = Ok tt ∧
      sent (snd (end_ self task job jobargs ch)) = sent ch ++ [Status text]
  | Some e =>
      fst (end_ self task job jobargs ch) = Raise e ∧
      sent (snd (end_ self task job jobargs ch)) = sent ch
  end.
Proof.
  intros Hsave Hreduce. cbv zeta.
  rewrite (end_run self task job jobargs ch save reduce_ Hsave Hreduce).
  destruct (negb (truthy save)
            || (String.eqb (task_mode task) "map" && truthy reduce_))%bool;
    rewrite disposal_run;
    [destruct (task_outcome task TaskSend)
    |destruct (task_outcome task TaskSave)]; simpl; auto.
Qed.

Lemma defaults_save : defaults !! "save" = Some (VBool false).
Proof. vm_compute. reflexivity. Qed.

Lemma defaults_reduce : defaults !! "reduce" = Some VNone.
Proof. vm_compute. reflexivity. Qed.

(** X9: for a worker made by the constructor, whatever its keyword
    arguments, [end] fails only when the task's own [send] or [save]
    fails: the exception [end] raises is the one that call raised. *)
Theorem end_of_constructed (module : string) (kwargs : Dict) (task : Task)
    (job : Job) (jobargs : Dict) (ch : Channel) (e : exn) :
  fst (end_ (Worker_init module kwargs) task job jobargs ch) = Raise e →
  task_outcome task TaskSend = Some e ∨ task_outcome task TaskSave = Some e.
Proof.
  assert (∃ save, worker_items (Worker_init module kwargs) !! "save"
                    = Some save) as [save Hsave].
  { rewrite Worker_init_items, defaults_save.
    destruct (kwargs !! "save"); eauto. }
  assert (∃ reduce_, worker_items (Worker_init module kwargs) !! "reduce"
                       = Some reduce_) as [reduce_ Hreduce].
  { rewrite Worker_init_items, defaults_reduce.
    destruct (kwargs !! "reduce"); eauto. }
  rewrite (end_run _ task job jobargs ch save reduce_ Hsave Hreduce).
  destruct (negb (truthy save)
            || (String.eqb (task_mode task) "map" && truthy reduce_))%bool;
    rewrite disposal_run;
    [destruct (task_outcome task TaskSend)
    |destruct (task_outcome task TaskSave)]; simpl;
    intros [= <-]; auto.
Qed.

(** X10: [run] looks the task's mode up in the worker and calls what it
    finds. A mode the worker has no entry for raises [KeyError], and an
    entry that is [None] (the default of [map] and [reduce]), a number,
    a string, a sequence or a dictionary, none of which can be called,
    raises [TypeError]; in both cases nothing has been sent and the task
    has not been touched. *)
Theorem run_without_function (self : Worker) (task : Task) (job : Job)
    (jobargs : Dict) (ch : Channel) :
  (worker_items self !! task_mode task = None →
   run self task job jobargs ch = (Raise (KeyError (task_mode task)), ch)) ∧
  (∀ v, worker_items self !! task_mode task = Some v →
        (∀ name, v ≠ VFun name) → (∀ name, v ≠ VObj name) →
        run self task job jobargs ch
          = (Raise (TypeError "object is not callable"), ch)).
Proof.
  unfold run, subscript. split.
  - intros ->. reflexivity.
  - intros v -> Hfun Hobj. rewrite bind_M_run. unfold lift at 1.
    destruct v; try reflexivity; exfalso;
      [eapply Hfun | eapply Hobj]; reflexivity.
Qed.

(** [start] once the memory limit is set, for keywords that bind in
    [getitem]. *)
Lemma start_run (self : Worker) (task : Task) (job : Job) (jobargs : Dict)
    (ch : Channel) (max_mem : pyval) :
  accepts getitem_params jobargs →
  job_settings job !! "DISCO_WORKER_MAX_MEM" = Some max_mem →
  set_mem_limit max_mem = None →
  start self task job jobargs ch =
  ((if truthy (resolved self "profile" job jobargs)
    then
      runctx (run self task job jobargs)
             (task_path task ("profile-" +:+ task_uid task));;
      contents ← lift (read_file
                         (task_path task ("profile-" +:+ task_uid task)));
      task_do task (TaskPut ("profile-" +:+ task_uid task) contents)
    else run self task job jobargs);;
   end_ self task job jobargs) ch.
Proof.
  intros Hbind Hmem Hlimit. unfold start, subscript.
  rewrite Hmem, (getitem_resolved _ _ _ _ Hbind).
  rewrite !bind_M_run. unfold lift at 1. rewrite Hlimit.
  reflexivity.
Qed.

(** X11: [start] sets the memory limit before anything else. Without a
    [DISCO_WORKER_MAX_MEM] setting it raises [KeyError], and when
    [set_mem_limit] raises it raises the same; either way the task's
    function has not run: nothing was sent and the task is untouched. *)
Theorem start_needs_memory_limit (self : Worker) (task : Task) (job : Job)
    (jobargs : Dict) (ch : Channel) :
  (job_settings job !! "DISCO_WORKER_MAX_MEM" = None →
   start self task job jobargs ch
     = (Raise (KeyError "DISCO_WORKER_MAX_MEM"), ch)) ∧
  (∀ max_mem e, job_settings job !! "DISCO_WORKER_MAX_MEM" = Some max_mem →
     set_mem_limit max_mem = Some e →
     start self task job jobargs ch = (Raise e, ch)).
Proof.
  unfold start, subscript. split.
  - intros ->. reflexivity.
  - intros max_mem e -> Hlimit.
    rewrite !bind_M_run. unfold lift at 1. rewrite Hlimit. reflexivity.
Qed.

(** X12: without profiling, a task function that fails is not followed
    by [end]: once the memory limit is set and [profile] is looked up
    (the call-time arguments bind in [getitem]), [start] raises what
    [run] raised and leaves the channel as [run] left it, so the output
    is neither sent nor saved, and no "Results ..." status is reported. *)
Theorem start_failed_run (self : Worker) (task : Task) (job : Job)
    (jobargs : Dict) (ch ch' : Channel) (max_mem : pyval) (e : exn) :
  accepts getitem_params jobargs →
  job_settings job !! "DISCO_WORKER_MAX_MEM" = Some max_mem →
  set_mem_limit max_mem = None →
  truthy (resolved self "profile" job jobargs) = false →
  run self task job jobargs ch = (Raise e, ch') →
  start self task job jobargs ch = (Raise e, ch').
Proof.
  intros Hbind Hmem Hlimit Hprofile Hrun.
  rewrite (start_run self task job jobargs ch max_mem Hbind Hmem Hlimit).
  rewrite Hprofile, bind_M_run, Hrun. reflexivity.
Qed.

(** What a returning [start] has done last. *)
Lemma start_Ok_inv (self : Worker) (task : Task) (job : Job) (jobargs : Dict)
    (ch ch' : Channel) :
  start self task job jobargs ch = (Ok tt, ch') →
  ∃ before,
    (sent ch' = sent before ++ [Status "Results sent to master"] ∧
     task_calls ch' = task_calls before ++ [TaskSend]) ∨
    (sent ch' = sent before ++ [Status "Results saved to DDFS"] ∧
     task_calls ch' = task_calls before ++ [TaskSave]).
Proof.
  unfold start. intros Hstart.
  apply bind_M_Ok in Hstart as (max_mem & ch1 & _ & Hstart).
  apply bind_M_Ok in Hstart as (? & ch2 & _ & Hstart).
  apply bind_M_Ok in Hstart as (profile & ch3 & _ & Hstart).
  apply bind_M_Ok in Hstart as (? & before & _ & Hend).
  exists before. apply end_inv in Hend. tauto.
Qed.

(** X13: when [start] returns, the last thing done to the task is one
    [send] or one [save], and the last event sent is the status line that
    goes with it. *)
Theorem start_returns_disposed (self : Worker) (task : Task) (job : Job)
    (jobargs : Dict) (ch ch' : Channel) :
  start self task job jobargs ch = (Ok tt, ch') →
  (last (task_calls ch') = Some TaskSend ∧
   last (sent ch') = Some (Status "Results sent to master")) ∨
  (last (task_calls ch') = Some TaskSave ∧
   last (sent ch') = Some (Status "Results saved to DDFS")).
Proof.
  intros Hstart.
  destruct (start_Ok_inv self task job jobargs ch ch' Hstart)
    as (before & [[-> ->]|[-> ->]]); rewrite !last_snoc; auto.
Qed.

(** X14: under profiling, the trace is attached before the output is
    disposed of. When [start] returns with a truthy resolved [profile],
    the file at [task.path("profile-<uid>")] was read, and the last two
    calls on the task are [put("profile-<uid>", contents)] and then the
    one [send] or [save] of [end]. *)
Theorem start_profile_put (self : Worker) (task : Task) (job : Job)
    (jobargs : Dict) (ch ch' : Channel) :
  truthy (resolved self "profile" job jobargs) = true →
  start self task job jobargs ch = (Ok tt, ch') →
  ∃ before contents c,
    read_file (task_path task ("profile-" +:+ task_uid task)) = Ok contents ∧
    task_calls ch' =
      before ++ [TaskPut ("profile-" +:+ task_uid task) contents; c] ∧
    (c = TaskSend ∨ c = TaskSave).
Proof.
  intros Hprofile Hstart. unfold start in Hstart.
  apply bind_M_Ok in Hstart as (max_mem & ch1 & _ & Hstart).
  apply bind_M_Ok in Hstart as (? & ch2 & _ & Hstart).
  apply bind_M_Ok in Hstart as (profile & ch3 & Hlookup & Hstart).
  unfold lift in Hlookup. injection Hlookup as Hlookup _.
  apply getitem_Ok in Hlookup as [_ ->]. rewrite Hprofile in Hstart.
  apply bind_M_Ok in Hstart as (? & ch4 & Hbody & Hend).
  apply bind_M_Ok in Hbody as (? & ch5 & _ & Hbody).
  apply bind_M_Ok in Hbody as (contents & ch6 & Hread & Hput).
  unfold lift in Hread. injection Hread as Hread <-.
  unfold task_do in Hput.
  apply bind_M_Ok in Hput as (? & ch7 & Hlog & Hput).
  unfold update in Hlog. injection Hlog as _ <-.
  assert (ch4 = {| sent := sent ch5;
                   task_calls := task_calls ch5
                     ++ [TaskPut ("profile-" +:+ task_uid task) contents] |})
    as ->.
  { unfold outcome in Hput.
    destruct (task_outcome task _); [discriminate|].
    inversion Hput. reflexivity. }
  apply end_inv in Hend. cbn [task_calls] in Hend.
  exists (task_calls ch5), contents.
  destruct Hend as [(_ & -> & _)|(_ & -> & _)];
    [exists TaskSend | exists TaskSave];
    rewrite <- app_assoc; auto.
Qed.

(** X15: under profiling, a profile that cannot be read back costs the
    task its output. When the profiled run returns (the memory limit was
    set and the call-time arguments bound in [getitem]) but reading the
    file raises, [start] raises that exception with the channel as the run
    left it: no [put], and no [send] or [save] either. *)
Theorem start_profile_unreadable (self : Worker) (task : Task) (job : Job)
    (jobargs : Dict) (ch ch' : Channel) (max_mem : pyval) (e : exn) :
  accepts getitem_params jobargs →
  job_settings job !! "DISCO_WORKER_MAX_MEM" = Some max_mem →
  set_mem_limit max_mem = None →
  truthy (resolved self "profile" job jobargs) = true →
  runctx (run self task job jobargs)
         (task_path task ("profile-" +:+ task_uid task)) ch = (Ok tt, ch') →
  read_file (task_path task ("profile-" +:+ task_uid task)) = Raise e →
  start self task job jobargs ch = (Raise e, ch').
Proof.
  intros Hbind Hmem Hlimit Hprofile Hrun Hread.
  rewrite (start_run self task job jobargs ch max_mem Hbind Hmem Hlimit).
  rewrite Hprofile, !bind_M_run, Hrun, Hread. reflexivity.
Qed.

(** X16: [unpack] forgives exactly an [ImportError] from loading the
    entry module. When the module loads, or loading raises an
    [ImportError], the result is what [cPickle.loads] makes of the job
    pack's data; when loading raises anything else, [unpack] raises it;
    and in no case does [unpack] send anything. *)
Theorem unpack_import_error (jobpack : JobPack) (ch : Channel) :
  (load_main_module = None →
   unpack jobpack ch = (loads (jobpack_jobdata jobpack), ch)) ∧
  (∀ e, load_main_module = Some e → isinstance e "ImportError" = true →
        unpack jobpack ch = (loads (jobpack_jobdata jobpack), ch)) ∧
  (∀ e, load_main_module = Some e → isinstance e "ImportError" = false →
        unpack jobpack ch = (Raise e, ch)).
Proof.
  unfold unpack. rewrite bind_M_run. unfold try_except.
  split; [|split].
  - intros ->. reflexivity.
  - intros e -> He. cbn [outcome raise dispatch].
    unfold isinstance_any. cbn [existsb]. rewrite He. reflexivity.
  - intros e -> He. cbn [outcome raise dispatch].
    unfold isinstance_any. cbn [existsb]. rewrite He. reflexivity.
Qed.

(** [main]'s task once both streams are wrapped. *)
Lemma main_task_announced (ch : Channel) :
  NonBlockingInput_outcome = None →
  MessageWriter_outcome = None →
  main_task ch =
  (jobpack ← lift JobPack_request;
   '(worker, job, jobargs) ← unpack jobpack;
   task ← lift Task_request;
   lift (bind_keywords start_params jobargs);;
   start worker task job jobargs) (push (AnnouncePID getpid) ch).
Proof. unfold main_task. intros -> ->. reflexivity. Qed.

(** X17: the process id is announced first. When both streams can be
    wrapped, the first event [main] sends on a fresh channel is
    [AnnouncePID] with the process id; when wrapping the input fails,
    nothing is announced: the only event is the failure event for that
    exception, if it is one [main] reports. *)
Theorem main_announces_first :
  (NonBlockingInput_outcome = None → MessageWriter_outcome = None →
   ∃ rest, sent (snd (main fresh)) = AnnouncePID getpid :: rest) ∧
  (∀ e, NonBlockingInput_outcome = Some e →
     sent (snd (main fresh)) =
     if isinstance_any e unavailable then [DataUnavailable (exc_text e)]
     else if isinstance e "Exception"
     then [TaskFailed (force_utf8 (exc_text e))]
     else []).
Proof.
  split.
  - intros Hin Hout. rewrite main_run, (main_task_announced fresh Hin Hout).
    assert (quiet (jobpack ← lift JobPack_request;
                   '(worker, job, jobargs) ← unpack jobpack;
                   task ← lift Task_request;
                   lift (bind_keywords start_params jobargs);;
                   start worker task job jobargs)) as Hquiet.
    { apply quiet_bind; [apply quiet_lift|]. intros jobpack.
      apply quiet_bind; [apply quiet_unpack|]. intros [[worker job] jobargs].
      apply quiet_bind; [apply quiet_lift|]. intros task.
      apply quiet_bind; [apply quiet_lift|]. intros _.
      apply quiet_start. }
    destruct (Hquiet (push (AnnouncePID getpid) fresh))
      as (extra & Hextra & _).
    destruct ((jobpack ← lift JobPack_request;
               '(worker, job, jobargs) ← unpack jobpack;
               task ← lift Task_request;
               lift (bind_keywords start_params jobargs);;
               start worker task job jobargs)
                (push (AnnouncePID getpid) fresh)) as [[[]|e] ch'];
      cbn [snd] in Hextra; cbn [push sent fresh app] in Hextra.
    + cbn [snd push sent]. rewrite Hextra. eexists. reflexivity.
    + destruct (isinstance_any e unavailable);
        [|destruct (isinstance e "Exception")];
        cbn [snd push sent]; rewrite Hextra; eexists; reflexivity.
  - intros e Hin. rewrite main_run. unfold main_task. rewrite Hin.
    rewrite bind_M_run. unfold outcome at 1, raise at 1.
    destruct (isinstance_any e unavailable);
      [|destruct (isinstance e "Exception")]; reflexivity.
Qed.

(** X18: [WorkerDone] comes only after the output is disposed of. When
    [main] returns on a fresh channel, its last two events are the status
    line of [end] and [WorkerDone], and the last call on the task is the
    [send] or [save] that status line reports. *)
Theorem main_done_after_disposal :
  fst (main fresh) = Ok tt →
  ∃ earlier,
    (sent (snd (main fresh))
       = earlier ++ [Status "Results sent to master"; WorkerDone] ∧
     last (task_calls (snd (main fresh))) = Some TaskSend) ∨
    (sent (snd (main fresh))
       = earlier ++ [Status "Results saved to DDFS"; WorkerDone] ∧
     last (task_calls (snd (main fresh))) = Some TaskSave).
Proof.
  rewrite main_run.
  destruct (main_task fresh) as [[[]|e] ch'] eqn:Htask.
  - intros _. unfold main_task in Htask.
    apply bind_M_Ok in Htask as (? & ch1 & _ & Htask).
    apply bind_M_Ok in Htask as (? & ch2 & _ & Htask).
    apply bind_M_Ok in Htask as (? & ch3 & _ & Htask).
    apply bind_M_Ok in Htask as (jobpack & ch4 & _ & Htask).
    apply bind_M_Ok in Htask as ([[worker job] jobargs] & ch5 & _ & Htask).
    apply bind_M_Ok in Htask as (task & ch6 & _ & Htask).
    apply bind_M_Ok in Htask as (? & ch7 & _ & Hstart).
    destruct (start_Ok_inv worker task job jobargs ch7 ch' Hstart)
      as (before & [[Hsent Hcalls]|[Hsent Hcalls]]);
      exists (sent before); [left|right];
      cbn [snd push sent task_calls];
      rewrite Hsent, Hcalls, <- app_assoc, last_snoc; auto.
  - destruct (isinstance_any e unavailable);
      [|destruct (isinstance e "Exception")]; discriminate.
Qed.

(** X19: a job pack that cannot be requested (the master is silent until
    the read times out, say) ends the worker at once: after announcing
    itself, [main] sends the failure event for that exception, if it is
    one it reports, and raises it; no task is requested and nothing is
    run. *)
Theorem main_failed_request (e : exn) :
  NonBlockingInput_outcome = None →
  MessageWriter_outcome = None →
  JobPack_request = Raise e →
  main fresh =
  (Raise e,
   {| sent := AnnouncePID getpid ::
        (if isinstance_any e unavailable then [DataUnavailable (exc_text e)]
         else if isinstance e "Exception"
         then [TaskFailed (force_utf8 (exc_text e))]
         else []);
      task_calls := [] |}).
Proof.
  intros Hin Hout Hrequest.
  rewrite main_run, (main_task_announced fresh Hin Hout).
  rewrite bind_M_run. unfold lift at 1. rewrite Hrequest.
  destruct (isinstance_any e unavailable);
    [|destruct (isinstance e "Exception")]; reflexivity.
Qed.

End ProtocolSteps.

Lemma end_disposes_once_witness :
  task_calls (snd (@end_ Examples.broken_node Examples.custom
                     Examples.reduce_task Examples.job ∅ fresh))
    = [TaskSave] ∧
  sent (snd (@end_ Examples.broken_node Examples.custom
               Examples.reduce_task Examples.job ∅ fresh))
    = [Status "Results saved to DDFS"].
Proof.
  destruct (@end_disposes_once Examples.broken_node Examples.custom
              Examples.reduce_task Examples.job ∅ fresh (VBool true) VNone)
    as (Hcalls & _ & Hsent).
  - vm_compute. reflexivity.
  - vm_compute. reflexivity.
  - split; [exact Hcalls | exact Hsent].
Defined.

Lemma end_of_constructed_witness :
  @task_outcome Examples.broken_node Examples.map_task TaskSend
    = Some (IOError "IOError: connection reset") ∨
  @task_outcome Examples.broken_node Examples.map_task TaskSave
    = Some (IOError "IOError: connection reset").
Proof.
  apply (@end_of_constructed Examples.broken_node "disco.worker" ∅
           Examples.map_task Examples.job ∅ fresh).
  vm_compute. reflexivity.
Defined.

(** The default worker has no map function to run, and no entry at all
    for a mode of another name. *)
Lemma run_without_function_witness :
  @run (Examples.node None) Examples.classic Examples.map_task
       Examples.job ∅ fresh
    = (Raise (TypeError "object is not callable"), fresh) ∧
  @run (Examples.node None) Examples.classic Examples.shuffle_task
       Examples.job ∅ fresh
    = (Raise (KeyError "shuffle"), fresh).
Proof.
  split.
  - destruct (@run_without_function (Examples.node None) Examples.classic
                Examples.map_task Examples.job ∅ fresh) as [_ Hvalue].
    apply (Hvalue VNone).
    + vm_compute. reflexivity.
    + intros name. discriminate.
    + intros name. discriminate.
  - destruct (@run_without_function (Examples.node None) Examples.classic
                Examples.shuffle_task Examples.job ∅ fresh) as [Hmode _].
    apply Hmode. vm_compute. reflexivity.
Defined.

Lemma start_needs_memory_limit_witness :
  @start (Examples.node None) Examples.mapper Examples.map_task
         Examples.site_job ∅ fresh
    = (Raise (KeyError "DISCO_WORKER_MAX_MEM"), fresh) ∧
  @start (Examples.node_with None (Raise (IOError "closed"))
                             (Some (MemoryError "MemoryError")))
         Examples.mapper Examples.map_task Examples.job ∅ fresh
    = (Raise (MemoryError "MemoryError"), fresh).
Proof.
  split.
  - destruct (@start_needs_memory_limit (Examples.node None) Examples.mapper
                Examples.map_task Examples.site_job ∅ fresh) as [Hmissing _].
    apply Hmissing. vm_compute. reflexivity.
  - destruct (@start_needs_memory_limit
                (Examples.node_with None (Raise (IOError "closed"))
                                    (Some (MemoryError "MemoryError")))
                Examples.mapper Examples.map_task Examples.job ∅ fresh)
      as [_ Hlimit].
    apply (Hlimit (VInt 1024)); vm_compute; reflexivity.
Defined.

Lemma start_failed_run_witness :
  @start (Examples.node (Some (ValueError "ValueError: bad record")))
         Examples.mapper Examples.map_task Examples.job ∅ fresh
    = (Raise (ValueError "ValueError: bad record"),
       {| sent := [Status "3 entries mapped"]; task_calls := [] |}).
Proof.
  apply (@start_failed_run
           (Examples.node (Some (ValueError "ValueError: bad record")))
           Examples.mapper Examples.map_task Examples.job ∅ fresh _
           (VInt 1024)); [repeat constructor | vm_compute; reflexivity..].
Defined.

Lemma start_returns_disposed_witness :
  last (task_calls (snd (@start (Examples.node None) Examples.mapper
                           Examples.map_task Examples.job ∅ fresh)))
    = Some TaskSend.
Proof.
  destruct (@start_returns_disposed (Examples.node None) Examples.mapper
              Examples.map_task Examples.job ∅ fresh
              (snd (@start (Examples.node None) Examples.mapper
                      Examples.map_task Examples.job ∅ fresh)))
    as [[Hcall _]|[Hcall _]].
  - vm_compute. reflexivity.
  - exact Hcall.
  - vm_compute in Hcall. discriminate Hcall.
Defined.

Lemma start_profile_put_witness :
  ∃ before contents c,
    @read_file (Examples.node None) ("./profile-7") = Ok contents ∧
    [TaskPut "profile-7" ""; TaskSend]
      = before ++ [TaskPut "profile-7" contents; c] ∧
    (c = TaskSend ∨ c = TaskSave).
Proof.
  apply (@start_profile_put (Examples.node None) Examples.profiled
           Examples.map_task Examples.job ∅ fresh
           {| sent := [Status "3 entries mapped";
                       Status "Results sent to master"];
              task_calls := [TaskPut "profile-7" ""; TaskSend] |});
    vm_compute; reflexivity.
Defined.

Lemma start_profile_unreadable_witness :
  @start Examples.broken_node Examples.profiled Examples.map_task
         Examples.job ∅ fresh
    = (Raise (IOError "./profile-7"), fresh).
Proof.
  apply (@start_profile_unreadable Examples.broken_node Examples.profiled
           Examples.map_task Examples.job ∅ fresh fresh (VInt 1024));
    [repeat constructor | vm_compute; reflexivity..].
Defined.

Lemma unpack_import_error_witness :
  @unpack (Examples.node None) Examples.pickle
          {| jobpack_jobdata := "jobdata" |} fresh
    = (Ok (Examples.mapper, Examples.job, ∅), fresh) ∧
  @unpack Examples.broken_node Examples.pickle
          {| jobpack_jobdata := "jobdata" |} fresh
    = (Raise (Exn ("SyntaxError" :: StandardError_mro)
                  "SyntaxError: invalid syntax"), fresh).
Proof.
  split.
  - destruct (@unpack_import_error (Examples.node None) Examples.pickle
                {| jobpack_jobdata := "jobdata" |} fresh)
      as (_ & Hforgiven & _).
    apply (Hforgiven (ImportError "No module named __main__"));
      vm_compute; reflexivity.
  - destruct (@unpack_import_error Examples.broken_node Examples.pickle
                {| jobpack_jobdata := "jobdata" |} fresh)
      as (_ & _ & Hraised).
    apply Hraised; vm_compute; reflexivity.
Defined.

Lemma main_announces_first_witness :
  (∃ rest, sent (snd (@main (Examples.node None) Examples.pickle fresh))
             = AnnouncePID "4242" :: rest) ∧
  sent (snd (@main (Examples.node_with (Some (IOError "IOError: closed"))
                                       (Raise (IOError "closed")) None)
                   Examples.pickle fresh))
    = [DataUnavailable "IOError: closed"].
Proof.
  split.
  - destruct (@main_announces_first (Examples.node None) Examples.pickle)
      as [Hfirst _].
    apply Hfirst; reflexivity.
  - destruct (@main_announces_first
                (Examples.node_with (Some (IOError "IOError: closed"))
                                    (Raise (IOError "closed")) None)
                Examples.pickle) as [_ Hnone].
    apply (Hnone (IOError "IOError: closed")). reflexivity.
Defined.

Lemma main_done_after_disposal_witness :
  ∃ earlier,
    (sent (snd (@main (Examples.node None) Examples.pickle fresh))
       = earlier ++ [Status "Results sent to master"; WorkerDone] ∧
     last (task_calls (snd (@main (Examples.node None) Examples.pickle fresh)))
       = Some TaskSend) ∨
    (sent (snd (@main (Examples.node None) Examples.pickle fresh))
       = earlier ++ [Status "Results saved to DDFS"; WorkerDone] ∧
     last (task_calls (snd (@main (Examples.node None) Examples.pickle fresh)))
       = Some TaskSave).
Proof.
  apply (@main_done_after_disposal (Examples.node None) Examples.pickle).
  vm_compute. reflexivity.
Defined.

(** A master that stays silent until the read times out. *)
Lemma main_failed_request_witness :
  @main (Examples.node_with None (Raise (IOError "IOError: timed out")) None)
        Examples.pickle fresh
    = (Raise (IOError "IOError: timed out"),
       {| sent := [AnnouncePID "4244"; DataUnavailable "IOError: timed out"];
          task_calls := [] |}).
Proof.
  apply (@main_failed_request
           (Examples.node_with None (Raise (IOError "IOError: timed out")) None)
           Examples.pickle (IOError "IOError: timed out")); reflexivity.
Defined.

(** ** The job home *)

Section JobHome.
Context `{Bundler}.

Lemma zip_do_run (c : zip_call) (calls : list zip_call) :
  zip_do c calls =
  match zip_outcome c with
  | None => (Ok tt, calls ++ [c])
  | Some e => (Raise e, calls ++ [c])
  end.
Proof.
  unfold zip_do, update, outcome. unfold mbind, M_bind, mbind_M. simpl.
  destruct (zip_outcome c); reflexivity.
Qed.

Lemma for_each_writes {A} (items : list A) (call : A → zip_call)
    (calls : list zip_call) :
  (∀ x, x ∈ items → zip_outcome (call x) = None) →
  for_each items (fun x => zip_do (call x)) calls
    = (Ok tt, calls ++ (call <$> items)).
Proof.
  revert calls. induction items as [|x rest IH]; intros calls Hall; simpl.
  - rewrite app_nil_r. reflexivity.
  - rewrite bind_M_run, zip_do_run, (Hall x) by left.
    rewrite IH by (intros y Hy; apply Hall; right; exact Hy).
    rewrite <- app_assoc. reflexivity.
Qed.

Lemma for_each_modules (mods targets : list pyval) (calls : list zip_call) :
  Forall2 names_module mods targets →
  (∀ t, t ∈ targets → zip_outcome (WriteModule t (Some "lib")) = None) →
  for_each mods (fun entry =>
    target ← (if iskv entry then lift (py_first entry) else mret entry);
    zip_do (WriteModule target (Some "lib"))) calls
  = (Ok tt, calls ++ ((fun t => WriteModule t (Some "lib")) <$> targets)).
Proof.
  intros Hnames. revert calls.
  induction Hnames as [|entry target mods targets Hname _ IH];
    intros calls Hall; simpl.
  - rewrite app_nil_r. reflexivity.
  - rewrite !bind_M_run. unfold names_module in Hname.
    assert ((if iskv entry then lift (py_first entry) else mret entry) calls
            = (Ok target, calls)) as ->.
    { destruct (iskv entry); [unfold lift; rewrite Hname|subst target];
        reflexivity. }
    rewrite zip_do_run, (Hall target) by left.
    rewrite IH by (intros y Hy; apply Hall; right; exact Hy).
    rewrite <- app_assoc. reflexivity.
Qed.

(** The calls for the required files: the contents given for each path
    when they come as a dictionary, the paths otherwise. *)
Lemma jobzip_files (files : pyval) (file_calls calls : list zip_call) :
  ((∃ items, files = VDict items ∧
      file_calls = (fun item => WriteBytes (fst item) (snd item)) <$> items) ∨
   ((∀ items, files ≠ VDict items) ∧
    ∃ paths, py_iter files = Ok paths ∧ file_calls = WritePath <$> paths)) →
  (∀ c, c ∈ file_calls → zip_outcome c = None) →
  match files with
  | VDict items =>
      for_each items (fun item => zip_do (WriteBytes (fst item) (snd item)))
  | _ =>
      paths ← lift (py_iter files);
      for_each paths (fun path => zip_do (WritePath path))
  end calls = (Ok tt, calls ++ file_calls).
Proof.
  intros [(items & -> & ->)|(Hnot & paths & Hiter & ->)] Hall.
  - apply for_each_writes. intros x Hx. apply Hall.
    apply list_elem_of_fmap. eauto.
  - assert ((paths0 ← lift (py_iter files);
             for_each paths0 (fun path => zip_do (WritePath path))) calls
            = (Ok tt, calls ++ (WritePath <$> paths))) as Hloop.
    { rewrite bind_M_run. unfold lift. rewrite Hiter.
      apply for_each_writes. intros x Hx. apply Hall.
      apply list_elem_of_fmap. eauto. }
    destruct files; try exact Hloop. exfalso. eapply Hnot. reflexivity.
Qed.

(** X20: what a job zip holds. For call-time arguments that bind in
    [getitem] (none is named [self], [key] or [job]), a job with a
    module, required files that are either a dictionary or something
    iterable, and required modules that are falsy or iterable, with
    every write accepted by the zip file, [jobzip] returns a zip with exactly these entries, in this
    order: the [clx] and [disco] packages under [lib], the job's module,
    the worker's module, one entry per required file ([writebytes] for a
    dictionary item, [writepath] for a path), and one module under [lib]
    per required module, the first component standing for a key-value
    pair. [jobhome] closes that zip and returns what it dumps. *)
Theorem jobzip_returns (self : Worker) (job : Job) (jobargs : Dict)
    (job_module : pyval) (file_calls : list zip_call)
    (mods targets : list pyval) :
  accepts getitem_params jobargs →
  job_attrs job !! "__module__" = Some job_module →
  ((∃ items, resolved self "required_files" job jobargs = VDict items ∧
      file_calls = (fun item => WriteBytes (fst item) (snd item)) <$> items) ∨
   ((∀ items, resolved self "required_files" job jobargs ≠ VDict items) ∧
    ∃ paths, py_iter (resolved self "required_files" job jobargs) = Ok paths ∧
             file_calls = WritePath <$> paths)) →
  py_iter (py_or (resolved self "required_modules" job jobargs) (VSeq []))
    = Ok mods →
  Forall2 names_module mods targets →
  let calls :=
    base_calls self job_module ++ file_calls ++
    ((fun t => WriteModule t (Some "lib")) <$> targets) in
  (∀ c, c ∈ calls → zip_outcome c = None) →
  jobzip self job jobargs = Ok calls ∧
  (zip_outcome ZipClose = None →
   jobhome self job jobargs = zip_dumps (calls ++ [ZipClose])).
Proof.
  intros Hbind Hmodule Hfiles Hiter Hnames calls Hall.
  assert (jobzip self job jobargs = Ok calls) as Hzip.
  { unfold jobzip, jobzip_writes. cbv beta zeta.
    rewrite !getitem_resolved by exact Hbind.
    assert (∀ c, c ∈ base_calls self job_module → zip_outcome c = None)
      as Hbase.
    { intros c Hc. apply Hall. unfold calls. apply elem_of_app. auto. }
    unfold getattr. rewrite Hmodule.
    rewrite bind_M_run, zip_do_run, Hbase by (left).
    rewrite bind_M_run, zip_do_run, Hbase by (right; left).
    rewrite bind_M_run. unfold lift at 1.
    rewrite bind_M_run, zip_do_run, Hbase by (right; right; left).
    rewrite bind_M_run, zip_do_run, Hbase by (right; right; right; left).
    rewrite bind_M_run. unfold lift at 1.
    rewrite bind_M_run.
    rewrite (jobzip_files _ file_calls) by
      (try exact Hfiles; intros c Hc; apply Hall; unfold calls;
       rewrite !elem_of_app; auto).
    rewrite bind_M_run. unfold lift at 1.
    rewrite bind_M_run. unfold lift at 1. rewrite Hiter.
    rewrite (for_each_modules mods targets) by
      (try exact Hnames; intros t Ht; apply Hall; unfold calls;
       rewrite !elem_of_app; right; right;
       apply list_elem_of_fmap; eauto).
    unfold calls, base_calls. simpl. reflexivity. }
  split; [exact Hzip|].
  intros Hclose. unfold jobhome. rewrite Hzip. cbn [mbind result_bind].
  rewrite zip_do_run, Hclose. reflexivity.
Qed.

Lemma accepted_pure {A} (r : result A) : accepted_only (lift r).
Proof.
  intros calls a calls' [= _ <-]. exists []. rewrite app_nil_r.
  split; [reflexivity | constructor].
Qed.

Lemma accepted_mret {A} (a : A) : accepted_only (mret a : M (list zip_call) A).
Proof. apply (accepted_pure (Ok a)). Qed.

Lemma accepted_zip_do (c : zip_call) : accepted_only (zip_do c).
Proof.
  intros calls a calls'. rewrite zip_do_run.
  destruct (zip_outcome c) eqn:Hc; [discriminate|].
  intros Hrun. inversion Hrun. exists [c]. split; [reflexivity|].
  constructor; [exact Hc | constructor].
Qed.

Lemma accepted_bind {A B} (m : M (list zip_call) A)
    (f : A → M (list zip_call) B) :
  accepted_only m → (∀ a, accepted_only (f a)) → accepted_only (m ≫= f).
Proof.
  intros Hm Hf calls b calls' Hrun.
  apply bind_M_Ok in Hrun as (a & calls1 & Hfirst & Hsecond).
  destruct (Hm _ _ _ Hfirst) as (extra1 & -> & Hok1).
  destruct (Hf a _ _ _ Hsecond) as (extra2 & -> & Hok2).
  exists (extra1 ++ extra2). rewrite app_assoc.
  split; [reflexivity | apply Forall_app; auto].
Qed.

Lemma accepted_for_each {A} (items : list A) (body : A → M (list zip_call) unit) :
  (∀ x, accepted_only (body x)) → accepted_only (for_each items body).
Proof.
  intros Hbody. induction items as [|x rest IH]; simpl.
  - apply accepted_mret.
  - apply accepted_bind; [apply Hbody | intros _; exact IH].
Qed.

(** X21: the code the worker runs on goes in first. Whatever the worker,
    the job and the arguments, a zip that [jobzip] returns starts with
    the [clx] package, the [disco] package, the job's module and the
    worker's module, in this order, before any required file or module;
    and every call made on it was accepted. *)
Theorem jobzip_base_first (self : Worker) (job : Job) (jobargs : Dict)
    (calls : list zip_call) :
  jobzip self job jobargs = Ok calls →
  ∃ job_module rest,
    job_attrs job !! "__module__" = Some job_module ∧
    calls = base_calls self job_module ++ rest ∧
    Forall (fun c => zip_outcome c = None) calls.
Proof.
  unfold jobzip.
  destruct (jobzip_writes self job jobargs []) as [[[]|e] calls'] eqn:Hrun;
    [|discriminate].
  intros [= <-]. unfold jobzip_writes in Hrun. cbv beta zeta in Hrun.
  rewrite bind_M_run, zip_do_run in Hrun.
  destruct (zip_outcome (WritePy clx_dir "lib")) eqn:E1; [discriminate|].
  rewrite bind_M_run, zip_do_run in Hrun.
  destruct (zip_outcome (WritePy disco_dir "lib")) eqn:E2; [discriminate|].
  rewrite bind_M_run in Hrun. unfold lift at 1, getattr in Hrun.
  destruct (job_attrs job !! "__module__") as [jm|] eqn:Hattr;
    [|discriminate].
  rewrite bind_M_run, zip_do_run in Hrun.
  destruct (zip_outcome (WriteModule jm None)) eqn:E3; [discriminate|].
  rewrite bind_M_run, zip_do_run in Hrun.
  destruct (zip_outcome (WriteModule (VStr (worker_module self)) None)) eqn:E4;
    [discriminate|].
  assert (accepted_only
    (required_files ← lift (getitem self "required_files" job jobargs);
     match required_files with
     | VDict items =>
         for_each items (fun item => zip_do (WriteBytes (fst item) (snd item)))
     | _ =>
         paths ← lift (py_iter required_files);
         for_each paths (fun path => zip_do (WritePath path))
     end;;
     required_modules ← lift (getitem self "required_modules" job jobargs);
     mods ← lift (py_iter (py_or required_modules (VSeq [])));
     for_each mods (fun entry =>
       target ← (if iskv entry then lift (py_first entry) else mret entry);
       zip_do (WriteModule target (Some "lib")))))
    as Hrest.
  { apply accepted_bind; [apply accepted_pure|]. intros files.
    apply accepted_bind.
    - destruct files;
        try (apply accepted_bind; [apply accepted_pure|]; intros paths);
        apply accepted_for_each; intros x; apply accepted_zip_do.
    - intros _. apply accepted_bind; [apply accepted_pure|]. intros modules.
      apply accepted_bind; [apply accepted_pure|]. intros mods.
      apply accepted_for_each. intros entry.
      apply accepted_bind; [|intros t; apply accepted_zip_do].
      destruct (iskv entry); [apply accepted_pure | apply accepted_mret]. }
  destruct (Hrest _ _ _ Hrun) as (rest & -> & Hok).
  exists jm, rest. split; [reflexivity|]. split; [reflexivity|].
  apply Forall_app. split; [|exact Hok].
  simpl. repeat constructor; assumption.
Qed.

(** X22: required files that cannot be iterated. When the call-time
    arguments bind in [getitem], the resolved [required_files] is not a
    dictionary and iterating it raises (for [None], a number or a
    function: [TypeError]), [jobzip] raises that
    exception after writing the four base entries, and [jobhome] raises
    it too: no job home is produced. The [or ()] that guards
    [required_modules] has no counterpart for the files. *)
Theorem jobzip_files_not_iterable (self : Worker) (job : Job)
    (jobargs : Dict) (job_module : pyval) (e : exn) :
  accepts getitem_params jobargs →
  job_attrs job !! "__module__" = Some job_module →
  (∀ c, c ∈ base_calls self job_module → zip_outcome c = None) →
  (∀ items, resolved self "required_files" job jobargs ≠ VDict items) →
  py_iter (resolved self "required_files" job jobargs) = Raise e →
  jobzip self job jobargs = Raise e ∧ jobhome self job jobargs = Raise e.
Proof.
  intros Hbind Hmodule Hbase Hnot Hiter.
  assert (jobzip self job jobargs = Raise e) as Hzip.
  { unfold jobzip, jobzip_writes. cbv beta zeta.
    rewrite !getitem_resolved by exact Hbind. unfold getattr. rewrite Hmodule.
    rewrite bind_M_run, zip_do_run, Hbase by (left).
    rewrite bind_M_run, zip_do_run, Hbase by (right; left).
    rewrite bind_M_run. unfold lift at 1.
    rewrite bind_M_run, zip_do_run, Hbase by (right; right; left).
    rewrite bind_M_run, zip_do_run, Hbase by (right; right; right; left).
    rewrite bind_M_run. unfold lift at 1.
    rewrite bind_M_run.
    destruct (resolved self "required_files" job jobargs) eqn:Hfiles;
      try (exfalso; eapply Hnot; reflexivity);
      rewrite bind_M_run; unfold lift at 1; rewrite Hiter; reflexivity. }
  split; [exact Hzip|]. unfold jobhome. rewrite Hzip. reflexivity.
Qed.

End JobHome.

(** The shipping worker's zip: the base entries, the data file, and the
    two modules, the second named by the first component of its pair. *)
Lemma jobzip_returns_witness :
  @jobzip Examples.bundler Examples.shipping Examples.packaged_job ∅
    = Ok (@base_calls Examples.bundler Examples.shipping (VStr "wordcount")
          ++ [WriteBytes "stopwords.txt" (VStr "a an the")]
          ++ [WriteModule (VStr "simplejson") (Some "lib");
              WriteModule (VStr "tokenize") (Some "lib")]) ∧
  @jobhome Examples.bundler Examples.shipping Examples.packaged_job ∅
    = Ok "PK".
Proof.
  destruct (@jobzip_returns Examples.bundler Examples.shipping
              Examples.packaged_job ∅ (VStr "wordcount")
              [WriteBytes "stopwords.txt" (VStr "a an the")]
              [VStr "simplejson";
               VSeq [VStr "tokenize"; VStr "/home/alice/tokenize.py"]]
              [VStr "simplejson"; VStr "tokenize"]) as [Hzip Hhome].
  - repeat constructor.
  - vm_compute. reflexivity.
  - left. eexists. split; vm_compute; reflexivity.
  - vm_compute. reflexivity.
  - repeat constructor.
  - intros c _. reflexivity.
  - split; [exact Hzip|]. rewrite Hhome; reflexivity.
Defined.

Lemma jobzip_base_first_witness :
  ∃ job_module rest,
    job_attrs Examples.packaged_job !! "__module__" = Some job_module ∧
    @base_calls Examples.bundler Examples.classic (VStr "wordcount")
      = @base_calls Examples.bundler Examples.classic job_module ++ rest ∧
    Forall (fun c => @zip_outcome Examples.bundler c = None)
           (@base_calls Examples.bundler Examples.classic (VStr "wordcount")).
Proof.
  apply (@jobzip_base_first Examples.bundler Examples.classic
           Examples.packaged_job ∅).
  vm_compute. reflexivity.
Defined.

(** [required_files=None] raises, where [required_modules=None] is the
    default. *)
Lemma jobzip_files_not_iterable_witness :
  @jobzip Examples.bundler Examples.classic Examples.packaged_job
          {[ "required_files" := VNone ]}
    = Raise (TypeError "object is not iterable") ∧
  @jobhome Examples.bundler Examples.classic Examples.packaged_job
           {[ "required_files" := VNone ]}
    = Raise (TypeError "object is not iterable").
Proof.
  apply (@jobzip_files_not_iterable Examples.bundler Examples.classic
           Examples.packaged_job {[ "required_files" := VNone ]}
           (VStr "wordcount")).
  - repeat constructor.
  - vm_compute. reflexivity.
  - intros c _. reflexivity.
  - intros items. vm_compute. discriminate.
  - vm_compute. reflexivity.
Defined.
